(** * SnapsAI: the Instagram post converter (RAG pipeline)

    A shallow embedding of [SnapsAI_instagramversion copy.py]: the classes
    [ImageProcessor], [InstagramAPI], [RAGChain] and [SocialMediaConverter].
    Python exceptions are an error monad, the converter's mutable
    [conversion_history] is threaded as explicit state, and the services
    the program calls (HTTP, PIL, the vector store, the chat model) are
    type-class parameters. *)

From stdpp Require Import base gmap strings list.
From Stdlib Require Import Ascii QArith Sorting.Sorted.

Open Scope nat_scope.

(** ** Python values the program handles *)

(** Exceptions, by class name and message. *)
Inductive PyError :=
  | ValueError (msg : string)
  | AttributeError (msg : string)
  | KeyError (key : string)
  | OtherError (cls msg : string).

Global Instance PyError_eq_dec : EqDecision PyError.
Proof. solve_decision. Defined.

(** A call either returns or raises. *)
Inductive result (A : Type) :=
  | Ok (a : A)
  | Raise (e : PyError).
Arguments Ok {A} a.
Arguments Raise {A} e.

Global Instance result_ret : MRet result := fun _ a => Ok a.
Global Instance result_bind : MBind result := fun _ _ k r =>
  match r with
  | Ok a => k a
  | Raise e => Raise e
  end.
Global Instance result_fmap : FMap result := fun _ _ f r =>
  match r with
  | Ok a => Ok (f a)
  | Raise e => Raise e
  end.

(** ** Strings *)

Module Str.

Definition LF : ascii := Ascii.ascii_of_nat 10.
Definition nl : string := String LF "".

(** [sep.join(parts)] *)
Fixpoint join (sep : string) (parts : list string) : string :=
  match parts with
  | [] => ""
  | [p] => p
  | p :: ps => p +:+ sep +:+ join sep ps
  end.

(** [s.lower()] on the ASCII range. *)
Definition lower_ascii (c : ascii) : ascii :=
  let n := Ascii.nat_of_ascii c in
  if (65 <=? n) && (n <=? 90) then Ascii.ascii_of_nat (n + 32) else c.

Fixpoint lower (s : string) : string :=
  match s with
  | "" => ""
  | String c s' => String (lower_ascii c) (lower s')
  end.

(** [s[start:start+len]] *)
Definition slice (start len : nat) (s : string) : string :=
  String.substring start len s.

End Str.

(** ** Documents *)

Inductive MetaVal :=
  | MStr (s : string)
  | MInt (n : nat).

(** langchain's [Document]: [page_content] and the [metadata] dict. *)
Record Document := mkDocument {
  page_content : string;
  metadata : gmap string MetaVal
}.

(** A value a chain step can receive: a [str], or the request dict. *)
Inductive PyVal :=
  | VStr (s : string)
  | VDict (d : gmap string string).

(** ** The services the program calls *)

(** PIL, as far as the program uses it. [thumbnail] is the image after the
    in-place [image.thumbnail(max_size)]; [paste_on_white] is the fresh
    [Image.new("RGB", image.size, (255, 255, 255))] after
    [new_image.paste(image, mask=...)]. *)
Class PIL (Image : Type) := {
  image_format : Image → option string;
  thumbnail : Image → nat * nat → result Image;
  paste_on_white : Image → result Image
}.



(** [image.show()]: the viewer opens, or the call raises. *)
Class Viewer (Image : Type) := {
  image_show : Image → result ()
}.

(** [requests.get(url)] followed by [Image.open(io.BytesIO(response.content))]. *)
Class Web (Image : Type) := {
  fetch_image : string → result Image
}.

(** The Chroma vector store: building it from documents, and the search
    behind a retriever with a given [search_type] and [k]. *)
Class Chroma (Store : Type) := {
  from_documents : list Document → result Store;
  search : Store → string → PyVal → nat → result (list Document)
}.

(** A streamed call yields fragments and then either ends or raises. *)
Definition Stream : Type := list string * option PyError.

(** The chat model ([ChatOpenAI(model="gpt-4-0613", temperature=0.7)]) behind
    [StrOutputParser]. *)
Class ChatModel := {
  llm_stream : string → Stream
}.

(** [str(d)] of the request dict, as [str.format] renders it. *)
Class PyRepr := {
  dict_str : gmap string string → string
}.

Definition py_str `{PyRepr} (v : PyVal) : string :=
  match v with
  | VStr s => s
  | VDict d => dict_str d
  end.

(** ** class ImageProcessor *)

Module ImageProcessor.
Section ImageProcessor.
Context {Image : Type} `{PIL Image}.

Definition resize_image (image : Image) (max_size : nat * nat) : result Image :=
  thumbnail image max_size.

Definition convert_to_format (image : Image) (format : string) : result Image :=
  match image_format image with
  | None => Raise (AttributeError "'NoneType' object has no attribute 'lower'")
  | Some f =>
      if decide (Str.lower f ≠ Str.lower format)
      then paste_on_white image
      else Ok image
  end.

End ImageProcessor.
End ImageProcessor.

(** ** The Graph API, the file system and SQLite *)

(** What a Graph API request answers: the object's text fields and, on a
    media edge, the [data] list of posts. *)
Record GraphResponse := mkResponse {
  response_fields : gmap string string;
  response_data : option (list (gmap string string))
}.

(** [GraphAPI(access_token).request(path, args)]; [args] holds [fields] and
    [limit] when the call passes them. *)
Class Graph := {
  graph_request : string → option (string * Z) → result GraphResponse
}.

(** [except facebook.GraphAPIError] *)
Definition is_GraphAPIError (e : PyError) : bool :=
  match e with
  | OtherError cls _ => bool_decide (cls = "GraphAPIError")
  | _ => false
  end.

(** [open(filename, 'w', encoding='utf-8')]: whether the file opens. *)
Class Files := {
  open_for_writing : string → result ()
}.

(** SQLite: whether [sqlite3.connect(db_name)] opens the database, and the
    key a row inserted without one gets, from the keys in use. *)
Class Sqlite := {
  sqlite_connect : string → result ();
  next_rowid : list Z → Z
}.

(** ** class InstagramAPI *)

Module InstagramAPI.
Section InstagramAPI.
Context {Image : Type} `{Web Image}.

(** Every exception of the request or of [Image.open] is caught and
    turned into [None]. *)
Definition download_image (url : string) : option Image :=
  match fetch_image url with
  | Ok image => Some image
  | Raise _ => None
  end.

Context `{Graph}.

(** [get_user_id]: only a [GraphAPIError] is caught; a response without
    [id] raises [KeyError] to the caller. *)
Definition get_user_id (username : string) : result (option string) :=
  match graph_request ("/" +:+ username) None with
  | Ok response =>
      match response_fields response !! "id" with
      | Some id => Ok (Some id)
      | None => Raise (KeyError "id")
      end
  | Raise e => if is_GraphAPIError e then Ok None else Raise e
  end.

Definition media_fields : string :=
  "id,caption,media_type,media_url,thumbnail_url,permalink,timestamp".

(** [get_recent_posts]: every exception, a missing [data] included, gives
    the empty list. *)
Definition get_recent_posts (user_id : string) (limit : Z)
    : list (gmap string string) :=
  match graph_request ("/" +:+ user_id +:+ "/media")
          (Some (media_fields, limit)) with
  | Ok response => default [] (response_data response)
  | Raise _ => []
  end.

End InstagramAPI.
End InstagramAPI.

(** ** Prompt templates *)

Module Template.
Section Template.
Context `{PyRepr}.

(** [str.format] with keyword arguments, for a template whose fields are plain
    [{name}] (the converter's template has no [{{]/[}}] escapes);
    [field] is the field name read so far, when inside braces. *)
Fixpoint format_go (t : string) (field : option string)
    (kwargs : gmap string PyVal) : result string :=
  match t with
  | "" =>
      match field with
      | None => Ok ""
      | Some _ => Raise (ValueError "expected '}' before end of string")
      end
  | String c t' =>
      match field with
      | None =>
          if decide (c = "{"%char) then format_go t' (Some "") kwargs
          else if decide (c = "}"%char)
          then Raise (ValueError "Single '}' encountered in format string")
          else String c <$> format_go t' None kwargs
      | Some name =>
          if decide (c = "}"%char) then
            match kwargs !! name with
            | Some v => String.app (py_str v) <$> format_go t' None kwargs
            | None => Raise (KeyError name)
            end
          else format_go t' (Some (name +:+ String c "")) kwargs
      end
  end.

Definition format (t : string) (kwargs : gmap string PyVal) : result string :=
  format_go t None kwargs.

(** A text without braces. *)
Fixpoint plain (s : string) : bool :=
  match s with
  | "" => true
  | String c s' =>
      negb (bool_decide (c = "{"%char)) && negb (bool_decide (c = "}"%char))
      && plain s'
  end.

End Template.
End Template.

(** ** class RAGChain *)

Module RAGChain.

Definition template : string :=
"You are an expert in social media content creation and platform-specific formatting. Use the following context and given parameters to convert the input post to the target platform format.

Input Post: {input_post}
Source Platform: {source_platform}
Target Platform: {target_platform}
Image Included: {image_included}

Context (Style guides and platform-specific information):
{context}

Convert the input post to the target platform format, ensuring it adheres to the platform's best practices and limitations. Maintain the core message and adapt any platform-specific features (e.g., hashtags, mentions, character limits). If an image is included, provide suggestions for image placement or formatting.

Converted Post:
".

Definition input_variables : list string :=
  ["context"; "input_post"; "source_platform"; "target_platform";
   "image_included"].

(** [_format_docs] *)
Definition _format_docs (docs : list Document) : string :=
  Str.join (Str.nl +:+ Str.nl) (page_content <$> docs).

Section RAGChain.
Context {Store : Type} `{Chroma Store} `{ChatModel} `{PyRepr}.

(** What [vectorstore.as_retriever(search_type=..., search_kwargs={"k": ...})]
    keeps. *)
Record Retriever := mkRetriever {
  vectorstore : Store;
  search_type : string;
  search_k : nat
}.

Definition as_retriever (vs : Store) (ty : string) (k : nat) : Retriever :=
  mkRetriever vs ty k.

Definition invoke (r : Retriever) (query : PyVal) : result (list Document) :=
  search (vectorstore r) (search_type r) query (search_k r).

(** The object: [self.retriever]; [self.llm] is the [ChatModel], and
    [self.prompt], [self.rag_chain] are fixed by the two methods below. *)
Record t := mkRAGChain { retriever : Retriever }.

Definition __init__ (vs : Store) : t :=
  mkRAGChain (as_retriever vs "similarity" 5).

(** [_create_prompt]: the template over its five input variables. *)
Definition _create_prompt (kwargs : gmap string PyVal) : result string :=
  Template.format template kwargs.

(** The prompt composer on five text fields. *)
Definition compose_prompt
    (context input_post source_platform target_platform image_included : string)
    : result string :=
  _create_prompt
    {[ "context" := VStr context;
       "input_post" := VStr input_post;
       "source_platform" := VStr source_platform;
       "target_platform" := VStr target_platform;
       "image_included" := VStr image_included ]}.

(** The first step of the chain: every key of the dict literal is computed
    from the same chain input; [RunnablePassthrough()] hands that input on
    as it is. *)
Definition RunnablePassthrough (input : PyVal) : PyVal := input.

Definition parallel_step (self : t) (input : PyVal)
    : result (gmap string PyVal) :=
  docs ← invoke (retriever self) input;
  mret ({[ "context" := VStr (_format_docs docs);
           "input_post" := RunnablePassthrough input;
           "source_platform" := RunnablePassthrough input;
           "target_platform" := RunnablePassthrough input;
           "image_included" := RunnablePassthrough input ]}
        : gmap string PyVal).

(** [_create_rag_chain], streamed: dict step | prompt | llm | StrOutputParser. *)
Definition _create_rag_chain (self : t) (input : gmap string string) : Stream :=
  match parallel_step self (VDict input) ≫= _create_prompt with
  | Raise e => ([], Some e)
  | Ok p => llm_stream p
  end.

(** Joining the stream on the empty separator: consuming the stream re-raises what it raises. *)
Definition join_stream (s : Stream) : result string :=
  match s.2 with
  | Some e => Raise e
  | None => Ok (Str.join "" s.1)
  end.

Definition image_included_token (image_included : bool) : string :=
  if image_included then "Yes" else "No".

Definition chain_input
    (input_post source_platform target_platform : string)
    (image_included : bool) : gmap string string :=
  {[ "input_post" := input_post;
     "source_platform" := source_platform;
     "target_platform" := target_platform;
     "image_included" := image_included_token image_included ]}.

Definition convert_post (self : t)
    (input_post source_platform target_platform : string)
    (image_included : bool) : result string :=
  join_stream (_create_rag_chain self
    (chain_input input_post source_platform target_platform image_included)).

End RAGChain.
End RAGChain.

(** ** The generation client *)

(** Modelled from the spec: the sources only ever stream; the Generation
    Client's non-streaming [generate] returns the response as one text,
    which for a response that arrives as fragments is what accumulating the
    fragments one after the other, in arrival order, gives. *)
Definition generate (fragments : list string) : string :=
  foldl String.app "" fragments.

(** ** The text splitter *)

(** Modelled from the spec: [RecursiveCharacterTextSplitter] (langchain) is
    not among the sources, which only configure it
    ([chunk_size=1000, chunk_overlap=50, add_start_index=True]). This is the
    Chunker of the specification: scan the content left to right, emit a
    chunk of at most [chunk_size] characters at the window start, advance the
    start by [chunk_size - chunk_overlap], and stop once the content after
    the emitted chunk is exhausted. An overlap that is not strictly below
    the chunk size is a configuration error. *)
Module Chunker.

Record t := mkSplitter {
  chunk_size : nat;
  chunk_overlap : nat;
  add_start_index : bool
}.

Definition create (size overlap : nat) (start_index : bool) : result t :=
  if decide (overlap < size) then Ok (mkSplitter size overlap start_index)
  else Raise (ValueError "chunk overlap must be smaller than chunk size").

Section Scan.
Context {A : Type}.
Variable (C O : nat).

(** The windows from [start] on, each with its start offset. *)
Fixpoint scan (fuel start : nat) (content : list A) : list (nat * list A) :=
  match fuel with
  | 0 => []
  | S fuel' =>
      (start, take C (drop start content)) ::
        (if decide (length content ≤ start + C) then []
         else scan fuel' (start + (C - O)) content)
  end.

Definition windows (content : list A) : list (nat * list A) :=
  scan (S (length content)) 0 content.

End Scan.

Definition split_text (ts : t) (text : string) : list (nat * string) :=
  prod_map id String.string_of_list_ascii <$>
    windows (chunk_size ts) (chunk_overlap ts) (String.list_ascii_of_string text).

Definition chunk_of (ts : t) (doc : Document) (w : nat * string) : Document :=
  mkDocument w.2
    (if add_start_index ts
     then <["start_index" := MInt w.1]> (metadata doc)
     else metadata doc).

Definition split_document (ts : t) (doc : Document) : list Document :=
  chunk_of ts doc <$> split_text ts (page_content doc).

Definition split_documents (ts : t) (docs : list Document) : list Document :=
  docs ≫= split_document ts.

(** Undo the overlap: keep the first chunk, drop the first [chunk_overlap]
    characters of every later one, and concatenate. *)
Definition drop_overlap (ts : t) (chunk : string) : string :=
  String.string_of_list_ascii (drop (chunk_overlap ts) (String.list_ascii_of_string chunk)).

Definition reassemble (ts : t) (chunks : list string) : string :=
  match chunks with
  | [] => ""
  | c :: cs => c +:+ foldr String.app "" (drop_overlap ts <$> cs)
  end.

(** ceil(a / b) *)
Definition ceil_div (a b : nat) : nat := (a + b - 1) / b.

End Chunker.

(** ** The embedding index *)

(** An embedding function with its similarity score. *)
Class Embedding (Vector : Type) := {
  embed : string → Vector;
  similarity : Vector → Vector → Q
}.

(** Modelled from the spec: the Chroma index is not among the sources. This
    is the Embedding Index of the specification: [build] stores one
    (chunk, vector) pair per chunk; [query] embeds the text with the same
    function and returns the [k] chunks of highest similarity, descending
    by score, ties in original chunk order; an empty index gives an empty
    answer. *)
Module EmbeddingIndex.
Section EmbeddingIndex.
Context {Vector : Type} `{Embedding Vector}.

Definition Index : Type := list (Document * Vector).

Definition build (chunks : list Document) : Index :=
  (λ c, (c, embed (page_content c))) <$> chunks.

(** Stable insertion by descending score: [x] goes in front of the first
    entry whose score is not above its own. *)
Fixpoint insert_desc (x : Document * Q) (l : list (Document * Q))
    : list (Document * Q) :=
  match l with
  | [] => [x]
  | y :: l' =>
      if Qle_bool y.2 x.2 then x :: y :: l'
      else y :: insert_desc x l'
  end.

Definition sort_desc (l : list (Document * Q)) : list (Document * Q) :=
  foldr insert_desc [] l.

Definition scored (idx : Index) (text : string) : list (Document * Q) :=
  (λ e, (e.1, similarity (embed text) e.2)) <$> idx.

Definition query (idx : Index) (text : string) (k : nat)
    : list (Document * Q) :=
  take k (sort_desc (scored idx text)).

(** [a] ranks no lower than [b]. *)
Definition outranks (a b : Document * Q) : Prop := Qle b.2 a.2.

(** The Retriever: scores are dropped after ranking. *)
Definition retrieve (idx : Index) (k : nat) (text : string) : list Document :=
  fst <$> query idx text k.

End EmbeddingIndex.
End EmbeddingIndex.

(** ** class SocialMediaConverter *)

(** What construction reads from outside: [DirectoryLoader(db_dir, ...).load()]
    and [os.getenv] once [load_dotenv(env_path)] has run. *)
Class Startup := {
  directory_load : string → result (list Document);
  getenv : string → string → option string
}.

Module SocialMediaConverter.

(** The tuple appended to [conversion_history]:
    (input_post, source, target, converted_post, image_url). *)
Definition ConversionRecord : Type :=
  string * string * string * string * option string.

(** The source-platform field of a record. *)
Definition source_of (record : ConversionRecord) : string := record.1.1.1.2.

(** The outside calls construction makes, in program order. *)
Inductive Event :=
  | LoadEnv (env_path : string)
  | LoadDocuments (db_dir : string)
  | SplitDocuments (n : nat)
  | CreateVectorstore (n : nat)
  | CreateRAGChain
  | Getenv (name : string).

(** A computation that raises or returns, with the calls it made. *)
Definition Traced (A : Type) : Type := list Event * result A.

Definition call {A} (e : Event) (r : result A) : Traced A := ([e], r).

Definition raise {A} (e : PyError) : Traced A := ([], Raise e).

Definition then_ {A B} (m : Traced A) (k : A → Traced B) : Traced B :=
  match m.2 with
  | Ok a => (m.1 ++ (k a).1, (k a).2)
  | Raise e => (m.1, Raise e)
  end.

(** Python truthiness of an optional [str]. *)
Definition truthy (s : option string) : bool :=
  match s with
  | Some (String _ _) => true
  | _ => false
  end.

(** [bool(x)] of an optional PIL image: an [Image] object defines neither
    [__bool__] nor [__len__], so only [None] is false. *)
Definition bool_of {A} (x : option A) : bool :=
  match x with
  | Some _ => true
  | None => false
  end.

(** [split_documents] *)
Definition split_documents (documents : list Document) : result (list Document) :=
  text_splitter ← Chunker.create 1000 50 true;
  mret (Chunker.split_documents text_splitter documents).

(** The splitter that [split_documents] configures. *)
Definition text_splitter : Chunker.t := Chunker.mkSplitter 1000 50 true.

Section SocialMediaConverter.
Context {Image Store : Type}.
Context `{PIL Image} `{Web Image} `{Chroma Store} `{ChatModel} `{PyRepr}.
Context `{Startup}.

Record t := mkConverter {
  documents : list Document;
  splits : list Document;
  vectorstore : Store;
  rag_chain : @RAGChain.t Store;
  conversion_history : list ConversionRecord;
  instagram_access_token : string
}.

Definition load_documents (db_dir : string) : result (list Document) :=
  directory_load db_dir.

Definition create_vectorstore (documents : list Document) : result Store :=
  from_documents documents.

Definition __init__ (db_dir env_path : string) : Traced t :=
  then_ (call (LoadEnv env_path) (Ok ())) (λ _,
  then_ (call (LoadDocuments db_dir) (load_documents db_dir)) (λ documents,
  match documents with
  | [] => raise (ValueError ("No documents found in " +:+ db_dir))
  | _ :: _ =>
  then_ (call (SplitDocuments (length documents))
           (split_documents documents)) (λ splits,
  then_ (call (CreateVectorstore (length splits))
           (create_vectorstore splits)) (λ vectorstore,
  then_ (call CreateRAGChain (Ok (RAGChain.__init__ vectorstore))) (λ rag_chain,
  then_ (call (Getenv "INSTAGRAM_ACCESS_TOKEN")
           (Ok (getenv env_path "INSTAGRAM_ACCESS_TOKEN"))) (λ token,
  match token with
  | Some (String c tok) =>
      ([], Ok (mkConverter documents splits vectorstore rag_chain []
                 (String c tok)))
  | _ => raise (ValueError "INSTAGRAM_ACCESS_TOKEN not found in .env file")
  end))))
  end)).

(** [process_image] *)
Definition process_image (image : Image) (target_platform : string)
    : result Image :=
  if decide (target_platform = "Facebook") then
    image ← ImageProcessor.resize_image image (2048, 2048);
    ImageProcessor.convert_to_format image "PNG"
  else if decide (target_platform = "LinkedIn") then
    image ← ImageProcessor.resize_image image (1200, 627);
    ImageProcessor.convert_to_format image "PNG"
  else Ok image.

(** The request's fields, as [convert_instagram_post] reads them. *)
Definition caption_of (post : gmap string string) : string :=
  default "" (post !! "caption").

Definition original_image_of (post : gmap string string) : option Image :=
  let image_url := post !! "media_url" in
  if truthy image_url
  then image_url ≫= InstagramAPI.download_image
  else None.

(** The record a conversion of [post] for [target] with result [text]
    leaves. *)
Definition record_of (post : gmap string string) (target text : string)
    : ConversionRecord :=
  (caption_of post, "Instagram", target, text, post !! "media_url").

(** The request [convert_instagram_post] sends down the chain. *)
Definition request_of (post : gmap string string) (target_platform : string)
    : gmap string string :=
  RAGChain.chain_input (caption_of post) "Instagram" target_platform
    (bool_of (original_image_of post)).

(** [convert_instagram_post]: the outcome, and [conversion_history]
    after the call. *)
Definition convert_instagram_post (self : t) (post : gmap string string)
    (target_platform : string)
    : result (string * option Image) * list ConversionRecord :=
  let input_post := caption_of post in
  let image_url := post !! "media_url" in
  let original_image := original_image_of post in
  match RAGChain.convert_post (rag_chain self) input_post "Instagram"
          target_platform (bool_of original_image) with
  | Raise e => (Raise e, conversion_history self)
  | Ok converted_post =>
      let processed :=
        match original_image with
        | Some image => Some <$> process_image image target_platform
        | None => Ok None
        end in
      match processed with
      | Raise e => (Raise e, conversion_history self)
      | Ok processed_image =>
          (Ok (converted_post, processed_image),
           conversion_history self ++
             [(input_post, "Instagram", target_platform, converted_post,
               image_url)])
      end
  end.

Context `{Graph} `{Files} `{Sqlite}.

(** [get_instagram_posts]; the method's default [limit] is 5. *)
Definition get_instagram_posts (username : string) (limit : Z)
    : result (list (gmap string string)) :=
  user_id ← InstagramAPI.get_user_id username;
  match user_id with
  | Some (String c id) => Ok (InstagramAPI.get_recent_posts (String c id) limit)
  | _ => Ok []
  end.

(** The [f.write] calls of [save_conversion_history] for one record, on the
    text written so far. *)
Definition write_record (f : string) (record : ConversionRecord) : string :=
  let '(input_post, source, target, converted_post, image_url) := record in
  let f := f +:+ ("Source (" +:+ source +:+ "): " +:+ input_post +:+ Str.nl) in
  let f := f +:+ ("Target (" +:+ target +:+ "): " +:+ converted_post +:+ Str.nl) in
  let f :=
    if truthy image_url
    then f +:+ ("Image: " +:+ default "" image_url +:+ Str.nl)
    else f in
  f +:+ Str.nl.

(** [save_conversion_history], on the files by name: the outcome and the
    files afterwards. *)
Definition save_conversion_history (self : t) (filename : string)
    (files : gmap string string) : result () * gmap string string :=
  match open_for_writing filename with
  | Raise e => (Raise e, files)
  | Ok _ =>
      (Ok (), <[filename := foldl write_record "" (conversion_history self)]> files)
  end.

(** A row of the [conversions] table. *)
Record Row := mkRow {
  row_id : Z;
  row_input_post : string;
  row_source_platform : string;
  row_target_platform : string;
  row_converted_post : string;
  row_image_url : option string
}.

(** The [INSERT INTO conversions (...) VALUES (?, ?, ?, ?, ?)] of one
    record. *)
Definition insert_record (rows : list Row) (record : ConversionRecord)
    : list Row :=
  let '(input_post, source, target, converted_post, image_url) := record in
  rows ++ [mkRow (next_rowid (row_id <$> rows)) input_post source target
             converted_post image_url].

(** The five columns of a row that come from the record. *)
Definition row_record (row : Row) : ConversionRecord :=
  (row_input_post row, row_source_platform row, row_target_platform row,
   row_converted_post row, row_image_url row).

(** [upload_to_database], on the [conversions] table of each database by
    file name: the outcome and the tables afterwards. The table is created
    empty when it is not there; a table that is there has these columns. *)
Definition upload_to_database (self : t) (db_name : string)
    (databases : gmap string (list Row))
    : result () * gmap string (list Row) :=
  match sqlite_connect db_name with
  | Raise e => (Raise e, databases)
  | Ok _ =>
      let conversions := default [] (databases !! db_name) in
      (Ok (),
       <[db_name := foldl insert_record conversions (conversion_history self)]>
         databases)
  end.

(** The converter after a call left [conversion_history] as [history]. *)
Definition with_history (self : t) (history : list ConversionRecord) : t :=
  mkConverter (documents self) (splits self) (vectorstore self)
    (rag_chain self) history (instagram_access_token self).

Context `{Viewer Image}.

(** [if processed_image: processed_image.show()] *)
Definition show_processed (processed_image : option Image) : result () :=
  match processed_image with
  | Some image => image_show image
  | None => Ok ()
  end.

(** The [for post in posts] loop of the script: one [input()] answer per
    post names the target; the first exception ends the loop, that of the
    image viewer included, which comes when the record of the post is on
    the history already. Printing is left out. *)
Fixpoint convert_each (self : t) (posts : list (gmap string string))
    (answers : list string)
    : result (list (string * option Image)) * list ConversionRecord :=
  match posts with
  | [] => (Ok [], conversion_history self)
  | post :: posts' =>
      match answers with
      | [] =>
          (Raise (OtherError "EOFError" "EOF when reading a line"),
           conversion_history self)
      | target_platform :: answers' =>
          match convert_instagram_post self post target_platform with
          | (Raise e, history) => (Raise e, history)
          | (Ok converted, history) =>
              match show_processed converted.2 with
              | Raise e => (Raise e, history)
              | Ok _ =>
                  match convert_each (with_history self history) posts'
                          answers' with
                  | (Ok rest, history') => (Ok (converted :: rest), history')
                  | (Raise e, history') => (Raise e, history')
                  end
              end
          end
      end
  end.

(** What the script leaves behind. *)
Record World := mkWorld {
  world_history : list ConversionRecord;
  world_files : gmap string string;
  world_databases : gmap string (list Row)
}.

(** The script once the converter is built: fetch the posts, convert each,
    then save the history to [conversion_history.txt] and upload it to
    [conversions.db]. *)
Definition run (self : t) (username : string) (answers : list string)
    (files : gmap string string) (databases : gmap string (list Row))
    : result () * World :=
  match get_instagram_posts username 5 with
  | Raise e => (Raise e, mkWorld (conversion_history self) files databases)
  | Ok posts =>
      match convert_each self posts answers with
      | (Raise e, history) => (Raise e, mkWorld history files databases)
      | (Ok _, history) =>
          match save_conversion_history (with_history self history)
                  "conversion_history.txt" files with
          | (Raise e, files') => (Raise e, mkWorld history files' databases)
          | (Ok _, files') =>
              match upload_to_database (with_history self history)
                      "conversions.db" databases with
              | (outcome, databases') =>
                  (outcome, mkWorld history files' databases')
              end
          end
      end
  end.

End SocialMediaConverter.
End SocialMediaConverter.

(** ** SnapsAI_test1.py: formatting posts and the rule-based conversion *)

Module SnapsAI_test1.

(** [a or b] on optional texts: [a] when it is a non-empty text, else [b]. *)
Definition or_else (a b : option string) : option string :=
  if SocialMediaConverter.truthy a then a else b.

(** [InstagramAPI.ensure_https] *)
Definition ensure_https (url : string) : string :=
  match url with
  | "" => url
  | _ =>
      if String.prefix "http://" url || String.prefix "https://" url then url
      else "https://" +:+ url
  end.

(** The URL starts with [http://] or [https://]. *)
Definition has_scheme (url : string) : Prop :=
  String.prefix "http://" url || String.prefix "https://" url = true.

(** A media item of the Graph API answer: its text fields and, when it has
    the [children] key, the [data] list under it, if any. *)
Record MediaItem := mkItem {
  item_fields : gmap string string;
  item_children : option (option (list (gmap string string)))
}.

Record FormattedPost := mkPost {
  post_id : option string;
  post_media_urls : list string;
  post_caption : string;
  post_media_type : option string;
  post_permalink : option string;
  post_timestamp : option string
}.

(** The URL one item or child contributes: its [media_url], else its
    [thumbnail_url], made https, when that is a non-empty text. *)
Definition urls_of (d : gmap string string) : list string :=
  match or_else (d !! "media_url") (d !! "thumbnail_url") with
  | Some (String c url) => [ensure_https (String c url)]
  | _ => []
  end.

Definition media_urls_of (item : MediaItem) : result (list string) :=
  match item_children item with
  | Some children =>
      if decide (item_fields item !! "media_type" = Some "CAROUSEL_ALBUM") then
        match children with
        | Some data => Ok (data ≫= urls_of)
        | None => Raise (KeyError "data")
        end
      else Ok (urls_of (item_fields item))
  | None => Ok (urls_of (item_fields item))
  end.

Definition format_post (item : MediaItem) : result FormattedPost :=
  media_urls ← media_urls_of item;
  mret (mkPost (item_fields item !! "id") media_urls
          (default "No caption" (item_fields item !! "caption"))
          (item_fields item !! "media_type")
          (item_fields item !! "permalink")
          (item_fields item !! "timestamp")).

(** [InstagramAPI.format_posts]: the first item that raises ends the loop. *)
Fixpoint format_posts (media_items : list MediaItem)
    : result (list FormattedPost) :=
  match media_items with
  | [] => Ok []
  | item :: items =>
      formatted_post ← format_post item;
      formatted_posts ← format_posts items;
      mret (formatted_post :: formatted_posts)
  end.

(** A text as its code points, which is what [len] and slices count. *)
Definition Text : Type := list N.

Definition text (s : string) : Text :=
  N_of_ascii <$> String.list_ascii_of_string s.

(** U+1F4F8 and U+1F6A8, the two emoji of the templates. *)
Definition camera_flash : N := 128248.
Definition rotating_light : N := 128680.

Definition image_note : Text :=
  text (Str.nl +:+ Str.nl +:+ "[Image from Instagram]").

(** [convert_post] *)
Definition convert_post (caption : Text) (target_platform : string)
    (has_image : bool) : Text :=
  let converted_post :=
    if decide (target_platform = "Twitter") then
      (if decide (200 < length caption)
       then text "Check out my latest Instagram post! " ++ [camera_flash]
            ++ text (Str.nl +:+ Str.nl) ++ take 200 caption ++ text "..."
       else caption)
      ++ text (Str.nl +:+ Str.nl +:+ "#Instagram #Social")
    else if decide (target_platform = "LinkedIn") then
      (text ("I just shared a new post on Instagram! Here's a sneak peek:"
             +:+ Str.nl +:+ Str.nl)
       ++ caption
       ++ text (Str.nl +:+ Str.nl +:+ "Follow me on Instagram for more updates!"))
      ++ text (Str.nl +:+ Str.nl +:+ "#SocialMedia #Professional #Instagram")
    else if decide (target_platform = "Facebook") then
      text "New Instagram Post Alert! " ++ [rotating_light]
      ++ text (Str.nl +:+ Str.nl) ++ caption
      ++ text (Str.nl +:+ Str.nl +:+
               "Head over to my Instagram profile to see the full post and more content!")
    else if decide (target_platform = "Thread") then
      text ("Continuing from my recent Instagram post..." +:+ Str.nl +:+ Str.nl)
      ++ take 100 caption
      ++ text ("..." +:+ Str.nl +:+ Str.nl +:+ "Thoughts?")
    else if decide (target_platform = "YouTube Community") then
      [camera_flash] ++ text " Instagram Update " ++ [camera_flash]
      ++ text (Str.nl +:+ Str.nl) ++ take 150 caption
      ++ text ("..." +:+ Str.nl +:+ Str.nl +:+
               "Check out my Instagram for the full post and more behind-the-scenes content!")
    else caption in
  if has_image then converted_post ++ image_note else converted_post.

End SnapsAI_test1.

(** ** A small world to run the converter in *)

Module Demo.

Record Img := mkImg { fmt : option string; width : nat; height : nat }.

(** The distance of two numbers. *)
Definition dist (a b : N) : N := ((a - b) + (b - a))%N.

(** The size [thumbnail] gives a [w] by [h] image for the bound [(x, y)]:
    an image within the bound stays as it is; otherwise one side takes the
    bound and the other keeps the aspect ratio [w / h], rounded down or up,
    whichever comes nearer to it (down on a tie), and at least 1. *)
Definition thumbnail_size (w h x y : nat) : nat * nat :=
  let '(w, h, x, y) := (N.of_nat w, N.of_nat h, N.of_nat x, N.of_nat y) in
  (if (w <=? x) && (h <=? y) then (N.to_nat w, N.to_nat h)
   else if y * w <=? x * h then
     let lo := y * w / h in
     let hi := (y * w + h - 1) / h in
     (N.to_nat (N.max (if dist (w * y) (lo * h) <=? dist (w * y) (hi * h)
                       then lo else hi) 1),
      N.to_nat y)
   else
     let lo := x * h / w in
     let hi := (x * h + w - 1) / w in
     (N.to_nat x,
      N.to_nat (N.max (if (lo =? 0)
                          || (dist (w * lo) (x * h) * hi
                              <=? dist (w * hi) (x * h) * lo)
                       then lo else hi) 1)))%N.

Definition pil : PIL Img := {|
  image_format := fmt;
  thumbnail img max_size :=
    let size := thumbnail_size (width img) (height img) max_size.1 max_size.2 in
    Ok (mkImg (fmt img) size.1 size.2);
  paste_on_white img := Ok (mkImg None (width img) (height img))
|}.


Definition viewer : Viewer Img := {| image_show img := Ok () |}.

(** A machine without a display. *)
Definition viewer_down : Viewer Img := {|
  image_show img := Raise (OtherError "OSError" "no display")
|}.

Definition photo : Img := mkImg (Some "JPEG") 4000 3000.

(** One address serves a photo, every other request fails. *)
Definition web : Web Img := {|
  fetch_image url :=
    if decide (url = "https://cdn.example/a.jpg") then Ok photo
    else Raise (OtherError "ConnectionError" url)
|}.

Definition repr : PyRepr := {|
  dict_str d := default "" (d !! "input_post")
|}.

(** [str] of a request dict, for values that need no escaping: the four
    entries in the order [convert_post] writes them. *)
Definition request_repr : PyRepr := {|
  dict_str d :=
    "{'input_post': '" +:+ default "" (d !! "input_post")
    +:+ "', 'source_platform': '" +:+ default "" (d !! "source_platform")
    +:+ "', 'target_platform': '" +:+ default "" (d !! "target_platform")
    +:+ "', " +:+ "'image_included': '" +:+ default "" (d !! "image_included")
    +:+ "'" +:+ "}"
|}.

(** Texts are embedded by their length; closer lengths score higher. *)
Definition embedding : Embedding nat := {|
  embed := String.length;
  similarity a b := inject_Z (- Z.abs (Z.of_nat a - Z.of_nat b))
|}.

Definition chroma : Chroma (list (Document * nat)) := {|
  from_documents docs := Ok (EmbeddingIndex.build (H := embedding) docs);
  search idx ty query k :=
    if decide (ty = "similarity")
    then Ok (EmbeddingIndex.retrieve (H := embedding) idx k
               (py_str (H := repr) query))
    else Raise (ValueError ("search_type of " +:+ ty +:+ " not allowed."))
|}.

(** A store whose every search raises. *)
Definition chroma_down : Chroma (list (Document * nat)) := {|
  from_documents docs := Ok (EmbeddingIndex.build (H := embedding) docs);
  search idx ty query k := Raise (OtherError "RateLimitError" "embeddings")
|}.

Definition llm : ChatModel := {|
  llm_stream prompt := (["New post"; ": "; "hello"; " #world"], None)
|}.


(** A model that looks in the prompt for the image flag. *)
Definition llm_flag : ChatModel := {|
  llm_stream prompt :=
    match String.index 0 "'image_included': 'Yes'" prompt with
    | Some _ => (["With"; " the photo"], None)
    | None => (["Text"; " only"], None)
    end
|}.

(** A model whose stream breaks after the first fragment. *)
Definition llm_down : ChatModel := {|
  llm_stream prompt := (["New po"], Some (OtherError "APIConnectionError" "reset"))
|}.

Definition guide (text : string) : Document := mkDocument text ∅.

Definition corpus : list Document :=
  [guide "Use short sentences."; guide "Keep hashtags under five per post."].

Definition startup : Startup := {|
  directory_load dir :=
    if decide (dir = "guides") then Ok corpus
    else if decide (dir = "empty") then Ok []
    else Raise (OtherError "FileNotFoundError" dir);
  getenv env_path name :=
    if decide (name = "INSTAGRAM_ACCESS_TOKEN") then Some "token" else None
|}.

Definition store : list (Document * nat) :=
  EmbeddingIndex.build (H := embedding) corpus.

(** A guide of 2000 characters. *)
Definition long_guide : Document :=
  guide (String.string_of_list_ascii (replicate 2000 "a"%char)).

Definition post_with_image : gmap string string :=
  {[ "caption" := "Check out my new product!";
     "media_url" := "https://cdn.example/a.jpg" ]}.

Definition post_broken_image : gmap string string :=
  {[ "caption" := "Check out my new product!";
     "media_url" := "https://cdn.example/gone.jpg" ]}.

(** A converter over the corpus, with one earlier conversion on record. *)
Definition earlier : SocialMediaConverter.ConversionRecord :=
  ("hi", "Instagram", "Thread", "hi there", None).

Definition converter : @SocialMediaConverter.t (list (Document * nat)) :=
  SocialMediaConverter.mkConverter corpus corpus store
    (RAGChain.__init__ store) [earlier] "token".

(** A carousel with two children, the first without a scheme, the second
    with a thumbnail only; a single image; and a carousel whose [children]
    has no [data]. *)
Definition carousel : SnapsAI_test1.MediaItem :=
  SnapsAI_test1.mkItem
    {[ "id" := "1"; "media_type" := "CAROUSEL_ALBUM"; "caption" := "Two views" ]}
    (Some (Some [ {[ "media_url" := "cdn.example/1.jpg" ]};
                  {[ "thumbnail_url" := "https://cdn.example/2.jpg" ]} ])).

Definition single_image : SnapsAI_test1.MediaItem :=
  SnapsAI_test1.mkItem
    {[ "id" := "2"; "media_type" := "IMAGE";
       "media_url" := "http://cdn.example/3.jpg" ]}
    None.

Definition broken_carousel : SnapsAI_test1.MediaItem :=
  SnapsAI_test1.mkItem {[ "id" := "3"; "media_type" := "CAROUSEL_ALBUM" ]}
    (Some None).

(** A Graph API that knows one account with two posts, reports [ghost] as
    unknown, and is unreachable for every other path. *)
Definition graph : Graph := {|
  graph_request path args :=
    if decide (path = "/snaps")
    then Ok (mkResponse {[ "id" := "17841" ]} None)
    else if decide (path = "/17841/media")
    then Ok (mkResponse ∅ (Some [post_with_image; post_broken_image]))
    else if decide (path = "/ghost")
    then Raise (OtherError "GraphAPIError" "Unsupported get request.")
    else if decide (path = "/bare")
    then Ok (mkResponse ∅ None)
    else if decide (path = "/locked")
    then Ok (mkResponse {[ "id" := "999" ]} None)
    else Raise (OtherError "ConnectionError" path)
|}.

Definition files : Files := {| open_for_writing filename := Ok () |}.

(** One more than the largest key in use. *)
Definition sqlite : Sqlite := {|
  sqlite_connect db_name := Ok ();
  next_rowid ids := (1 + foldr Z.max 0 ids)%Z
|}.

(** A converter with nothing on record yet. *)
Definition fresh_converter : @SocialMediaConverter.t (list (Document * nat)) :=
  SocialMediaConverter.mkConverter corpus corpus store
    (RAGChain.__init__ store) [] "token".

(** A start-up environment without the access token. *)
Definition startup_no_token : Startup := {|
  directory_load dir :=
    if decide (dir = "guides") then Ok corpus
    else Raise (OtherError "FileNotFoundError" dir);
  getenv env_path name := None
|}.

(** A PIL whose images are PNG already. *)
Definition png_photo : Img := mkImg (Some "PNG") 4000 3000.

(** An image made in memory: it has no format. *)
Definition drawn : Img := mkImg None 640 480.

(** A PIL that cannot decode what was downloaded. *)
Definition pil_truncated : PIL Img := {|
  image_format := fmt;
  thumbnail img max_size := Raise (OtherError "OSError" "image file is truncated");
  paste_on_white img := Ok (mkImg None (width img) (height img))
|}.

End Demo.

(** * Properties *)

(** ** Strings *)

Module StrFacts.
Import Str.

Lemma append_cons c s t : String c s +:+ t = String c (s +:+ t).
Proof. reflexivity. Qed.

Lemma append_nil_l s : "" +:+ s = s.
Proof. reflexivity. Qed.

Lemma append_nil_r s : s +:+ "" = s.
Proof. induction s as [|c s IH]; [done|]. by rewrite append_cons, IH. Qed.

Lemma append_assoc s1 s2 s3 : (s1 +:+ s2) +:+ s3 = s1 +:+ s2 +:+ s3.
Proof.
  induction s1 as [|c s1 IH]; [done|]. by rewrite !append_cons, IH.
Qed.

Lemma length_append s1 s2 :
  String.length (s1 +:+ s2) = String.length s1 + String.length s2.
Proof.
  induction s1 as [|c s1 IH]; [done|]. rewrite append_cons. simpl. by rewrite IH.
Qed.

Lemma slice_prefix s1 s2 :
  slice 0 (String.length s1) (s1 +:+ s2) = s1.
Proof.
  unfold slice. induction s1 as [|c s1 IH].
  - rewrite append_nil_l. destruct s2; reflexivity.
  - rewrite append_cons. simpl. by rewrite IH.
Qed.

Lemma slice_app_shift s1 s2 k n :
  slice (String.length s1 + k) n (s1 +:+ s2) = slice k n s2.
Proof.
  unfold slice. induction s1 as [|c s1 IH]; [done|].
  rewrite append_cons. simpl. apply IH.
Qed.

Lemma join_empty_sep parts : join "" parts = foldr String.app "" parts.
Proof.
  induction parts as [|p [|q ps] IH]; simpl in *.
  - done.
  - by rewrite append_nil_r.
  - by rewrite IH.
Qed.

Lemma join_cons sep p q ps :
  join sep (p :: q :: ps) = p +:+ sep +:+ join sep (q :: ps).
Proof. reflexivity. Qed.

End StrFacts.

Section JoinFacts.
Import Str StrFacts.

Lemma join_concat sep parts : join sep parts = String.concat sep parts.
Proof.
  induction parts as [|p [|q ps] IH]; [done..|].
  rewrite join_cons, IH. reflexivity.
Qed.

Lemma join_app parts1 parts2 :
  join "" (parts1 ++ parts2) = join "" parts1 +:+ join "" parts2.
Proof.
  rewrite !join_empty_sep.
  induction parts1 as [|p ps IH]; [done|].
  simpl. by rewrite IH, append_assoc.
Qed.

Lemma length_join_empty parts :
  String.length (join "" parts) = sum_list (String.length <$> parts).
Proof.
  rewrite join_empty_sep.
  induction parts as [|p ps IH]; [done|].
  simpl. by rewrite length_append, IH.
Qed.

Lemma length_join sep parts :
  String.length (join sep parts) =
  sum_list (String.length <$> parts) + String.length sep * (length parts - 1).
Proof.
  induction parts as [|p [|q ps] IH].
  - simpl. lia.
  - simpl. lia.
  - rewrite join_cons, !length_append, IH. simpl. lia.
Qed.

(** The fragment at position [i] sits in the joined text right after the
    fragments before it. *)
Lemma join_lookup parts i f :
  parts !! i = Some f →
  slice (sum_list (String.length <$> take i parts)) (String.length f)
        (join "" parts) = f.
Proof.
  intros Hi.
  rewrite <- (take_drop_middle parts i f Hi) at 2.
  rewrite join_app, <- length_join_empty.
  rewrite <- (Nat.add_0_r (String.length (join "" (take i parts)))).
  rewrite slice_app_shift.
  change (f :: drop (S i) parts) with ([f] ++ drop (S i) parts).
  rewrite join_app. apply slice_prefix.
Qed.

End JoinFacts.

(** ** RAGChain *)

Section RAGChainFacts.
Context {Store : Type} `{Chroma Store} `{ChatModel} `{PyRepr}.
Import RAGChain.

Lemma retriever_of_init (vs : Store) :
  retriever (__init__ vs) = mkRetriever vs "similarity" 5.
Proof. reflexivity. Qed.

Lemma join_stream_done frags : join_stream (frags, None) = Ok (Str.join "" frags).
Proof. reflexivity. Qed.

Lemma join_stream_raises frags e : join_stream (frags, Some e) = Raise e.
Proof. reflexivity. Qed.

(** A failed retrieval ends the stream before any fragment. *)
Lemma chain_retrieval_raises (self : t) input e :
  invoke (retriever self) (VDict input) = Raise e →
  _create_rag_chain self input = ([], Some e).
Proof.
  intros He. unfold _create_rag_chain, parallel_step. by rewrite He.
Qed.

Lemma convert_post_retrieval_raises (self : t) ip sp tp b e :
  invoke (retriever self) (VDict (chain_input ip sp tp b)) = Raise e →
  convert_post self ip sp tp b = Raise e.
Proof.
  intros He. unfold convert_post.
  by rewrite (chain_retrieval_raises _ _ _ He).
Qed.

Lemma convert_post_stream (self : t) ip sp tp b :
  convert_post self ip sp tp b =
  join_stream (_create_rag_chain self (chain_input ip sp tp b)).
Proof. reflexivity. Qed.

End RAGChainFacts.

(** C4: the retriever built by [RAGChain.__init__] searches with
    [search_type = "similarity"] and [k = 5], and the context the chain binds
    for the prompt is the page contents of the retrieved documents, in the
    order the search ranked them, joined by a blank line (two line feeds),
    nothing else: its length is the contents' total plus two per gap. *)
Theorem context_is_ranked_contents_joined
    {Store : Type} `{Chroma Store} (vs : Store) (query : PyVal)
    (docs : list Document) :
  search vs "similarity" query 5 = Ok docs →
  RAGChain.search_type (RAGChain.retriever (RAGChain.__init__ vs)) = "similarity"
  ∧ RAGChain.search_k (RAGChain.retriever (RAGChain.__init__ vs)) = 5
  ∧ RAGChain.invoke (RAGChain.retriever (RAGChain.__init__ vs)) query = Ok docs
  ∧ ∃ kwargs context,
      RAGChain.parallel_step (RAGChain.__init__ vs) query = Ok kwargs
      ∧ kwargs !! "context" = Some (VStr context)
      ∧ context = String.concat (String (ascii_of_nat 10) (String (ascii_of_nat 10) ""))
                    (page_content <$> docs)
      ∧ String.length context =
          sum_list (String.length <$> (page_content <$> docs))
          + 2 * (length docs - 1).
Proof.
  intros Hsearch.
  split; [done|]. split; [done|]. split; [exact Hsearch|].
  eexists _, _. split; [|split; [|split]].
  - unfold RAGChain.parallel_step, RAGChain.invoke. simpl.
    rewrite Hsearch. reflexivity.
  - reflexivity.
  - unfold RAGChain._format_docs. apply join_concat.
  - unfold RAGChain._format_docs.
    rewrite length_join, length_fmap. reflexivity.
Qed.

Lemma context_is_ranked_contents_joined_witness :
  search (Chroma := Demo.chroma) Demo.store "similarity" (VStr "Use short words") 5
    = Ok Demo.corpus
  ∧ ∃ kwargs context,
      RAGChain.parallel_step (H := Demo.chroma) (RAGChain.__init__ Demo.store)
        (VStr "Use short words") = Ok kwargs
      ∧ kwargs !! "context" = Some (VStr context)
      ∧ String.length context = 56.
Proof.
  assert (Hs : search (Chroma := Demo.chroma) Demo.store "similarity"
                 (VStr "Use short words") 5 = Ok Demo.corpus)
    by (vm_compute; reflexivity).
  split; [exact Hs|].
  destruct (context_is_ranked_contents_joined (H := Demo.chroma)
              Demo.store (VStr "Use short words") Demo.corpus Hs)
    as (_ & _ & _ & kwargs & context & Hk & Hc & _ & Hlen).
  exists kwargs, context. split; [exact Hk|]. split; [exact Hc|].
  rewrite Hlen. vm_compute. reflexivity.
Defined.

Lemma foldl_app_from acc fragments :
  foldl String.app acc fragments = acc +:+ foldr String.app "" fragments.
Proof.
  revert acc. induction fragments as [|f fs IH]; intros acc; simpl.
  - by rewrite StrFacts.append_nil_r.
  - by rewrite IH, StrFacts.append_assoc.
Qed.

Lemma generate_join fragments : generate fragments = Str.join "" fragments.
Proof.
  unfold generate. rewrite foldl_app_from, StrFacts.join_empty_sep.
  apply StrFacts.append_nil_l.
Qed.

(** C7: when the chain's stream ends normally, [convert_post] returns the
    fragments appended in arrival order: every fragment is found in the
    result right after the ones received before it, the result is as long
    as the fragments together, and it is what [generate] gives on the same
    fragments. *)
Theorem streamed_result_is_fragments_in_order
    {Store : Type} `{Chroma Store} `{ChatModel} `{PyRepr}
    (self : RAGChain.t) (input_post source_platform target_platform : string)
    (image_included : bool) (fragments : list string) :
  RAGChain._create_rag_chain self
    (RAGChain.chain_input input_post source_platform target_platform
       image_included) = (fragments, None) →
  ∃ text,
    RAGChain.convert_post self input_post source_platform target_platform
      image_included = Ok text
    ∧ text = foldr String.app "" fragments
    ∧ String.length text = sum_list (String.length <$> fragments)
    ∧ (∀ i f, fragments !! i = Some f →
         String.substring (sum_list (String.length <$> take i fragments))
           (String.length f) text = f)
    ∧ text = generate fragments.
Proof.
  intros Hstream. exists (Str.join "" fragments).
  split; [|split; [|split; [|split]]].
  - by rewrite convert_post_stream, Hstream.
  - apply StrFacts.join_empty_sep.
  - apply length_join_empty.
  - intros i f Hi. by apply join_lookup.
  - symmetry. apply generate_join.
Qed.

Lemma streamed_result_is_fragments_in_order_witness :
  RAGChain.convert_post (H := Demo.chroma) (H0 := Demo.llm) (H1 := Demo.repr)
    (RAGChain.__init__ Demo.store) "hello" "Instagram" "Facebook" false
  = Ok "New post: hello #world".
Proof.
  destruct (streamed_result_is_fragments_in_order
              (H := Demo.chroma) (H0 := Demo.llm) (H1 := Demo.repr)
              (RAGChain.__init__ Demo.store) "hello" "Instagram" "Facebook"
              false ["New post"; ": "; "hello"; " #world"])
    as (text & Hconv & Htext & _).
  - vm_compute. reflexivity.
  - rewrite Hconv, Htext. reflexivity.
Defined.

(** ** SocialMediaConverter *)

Section ConverterFacts.
Context {Image Store : Type}.
Context `{PIL Image} `{Web Image} `{Chroma Store} `{ChatModel} `{PyRepr}.
Context `{Startup}.
Import SocialMediaConverter.

Lemma process_image_other (image : Image) target :
  target ≠ "Facebook" → target ≠ "LinkedIn" →
  process_image image target = Ok image.
Proof.
  intros HF HL. unfold process_image.
  rewrite !decide_False by done. reflexivity.
Qed.

Lemma truthy_Some url : truthy (Some url) = true ↔ url ≠ "".
Proof. destruct url; simpl; split; congruence. Qed.

Lemma original_image_Some (post : gmap string string) image :
  original_image_of post = Some image ↔
  ∃ url, post !! "media_url" = Some url ∧ url ≠ ""
         ∧ InstagramAPI.download_image url = Some image.
Proof.
  unfold original_image_of. split.
  - destruct (post !! "media_url") as [url|] eqn:Hurl; [|done].
    destruct (truthy (Some url)) eqn:Ht; [|done].
    simpl. intros Hd. exists url.
    split; [done|]. split; [by apply truthy_Some|done].
  - intros (url & -> & Hne & Hd).
    apply truthy_Some in Hne. rewrite Hne. exact Hd.
Qed.

Lemma download_image_fails url e :
  fetch_image url = Raise e → InstagramAPI.download_image url = None.
Proof. intros He. unfold InstagramAPI.download_image. by rewrite He. Qed.

(** The call in three cases: the chain raises; the image step raises; both
    return. *)
Lemma convert_instagram_post_chain_raises (self : t) post target e :
  RAGChain.convert_post (rag_chain self) (caption_of post) "Instagram" target
    (bool_of (original_image_of post)) = Raise e →
  convert_instagram_post self post target = (Raise e, conversion_history self).
Proof. intros He. unfold convert_instagram_post. by rewrite He. Qed.

Lemma convert_instagram_post_no_image (self : t) post target text :
  original_image_of post = None →
  RAGChain.convert_post (rag_chain self) (caption_of post) "Instagram" target
    false = Ok text →
  convert_instagram_post self post target =
  (Ok (text, None),
   conversion_history self ++
     [(caption_of post, "Instagram", target, text, post !! "media_url")]).
Proof.
  intros Hi Hc. unfold convert_instagram_post. rewrite Hi. simpl.
  by rewrite Hc.
Qed.

Lemma convert_instagram_post_inv (self : t) post target r history :
  convert_instagram_post self post target = (r, history) →
  match r with
  | Ok (text, _) =>
      RAGChain.convert_post (rag_chain self) (caption_of post) "Instagram"
        target (bool_of (original_image_of post)) = Ok text
      ∧ history = conversion_history self ++
          [(caption_of post, "Instagram", target, text, post !! "media_url")]
  | Raise _ => history = conversion_history self
  end.
Proof.
  unfold convert_instagram_post.
  destruct (RAGChain.convert_post _ _ _ _ _) as [text|e].
  - destruct (original_image_of post) as [image|]; simpl.
    + destruct (process_image image target) as [image'|e]; simpl;
        intros [= <- <-]; auto.
    + intros [= <- <-]; auto.
  - intros [= <- <-]. reflexivity.
Qed.

End ConverterFacts.

(** C1: a call of [convert_instagram_post] that returns has appended
    exactly one record (input_post, "Instagram", target, converted text,
    image_url) to [conversion_history] and returns the text the chain
    produced; a call in which retrieval raises, or in which the model's
    stream raises, raises that same error and leaves [conversion_history]
    as it was; and so does every call that raises. *)
Theorem history_appended_only_on_success
    {Image Store : Type} {pil : PIL Image} {web : Web Image}
    {chroma : Chroma Store} {llm : ChatModel} {repr : PyRepr}
    (self : @SocialMediaConverter.t Store) (post : gmap string string)
    (target : string) :
  (∀ text image,
     (SocialMediaConverter.convert_instagram_post self post target).1
       = Ok (text, image) →
     (SocialMediaConverter.convert_instagram_post self post target).2
       = SocialMediaConverter.conversion_history self ++
           [(SocialMediaConverter.caption_of post, "Instagram", target, text,
             post !! "media_url")]
     ∧ RAGChain.convert_post (SocialMediaConverter.rag_chain self)
         (SocialMediaConverter.caption_of post) "Instagram" target
         (SocialMediaConverter.bool_of
            (SocialMediaConverter.original_image_of post)) = Ok text)
  ∧ (∀ e,
       RAGChain.invoke
         (RAGChain.retriever (SocialMediaConverter.rag_chain self))
         (VDict (SocialMediaConverter.request_of post target)) = Raise e →
       SocialMediaConverter.convert_instagram_post self post target
         = (Raise e, SocialMediaConverter.conversion_history self))
  ∧ (∀ prompt fragments e,
       RAGChain.parallel_step (SocialMediaConverter.rag_chain self)
         (VDict (SocialMediaConverter.request_of post target))
         ≫= RAGChain._create_prompt = Ok prompt →
       llm_stream prompt = (fragments, Some e) →
       SocialMediaConverter.convert_instagram_post self post target
         = (Raise e, SocialMediaConverter.conversion_history self))
  ∧ (∀ e,
       (SocialMediaConverter.convert_instagram_post self post target).1
         = Raise e →
       (SocialMediaConverter.convert_instagram_post self post target).2
         = SocialMediaConverter.conversion_history self).
Proof.
  split; [|split; [|split]].
  - intros text image Hrun.
    destruct (SocialMediaConverter.convert_instagram_post self post target)
      as [r history] eqn:Hcall.
    simpl in *. subst r.
    apply convert_instagram_post_inv in Hcall as [Hconv ->]. done.
  - intros e He.
    apply convert_instagram_post_chain_raises.
    by apply convert_post_retrieval_raises.
  - intros prompt fragments e Hprompt Hllm.
    apply convert_instagram_post_chain_raises.
    rewrite convert_post_stream. unfold RAGChain._create_rag_chain.
    fold (SocialMediaConverter.request_of post target).
    by rewrite Hprompt, Hllm.
  - intros e Hrun.
    destruct (SocialMediaConverter.convert_instagram_post self post target)
      as [r history] eqn:Hcall.
    simpl in *. subst r.
    by apply convert_instagram_post_inv in Hcall.
Qed.

Lemma history_appended_only_on_success_witness :
  (@SocialMediaConverter.convert_instagram_post Demo.Img _ Demo.pil Demo.web
     Demo.chroma Demo.llm Demo.repr Demo.converter Demo.post_with_image
     "Facebook").2
  = [Demo.earlier;
     ("Check out my new product!", "Instagram", "Facebook",
      "New post: hello #world", Some "https://cdn.example/a.jpg")]
  ∧ @SocialMediaConverter.convert_instagram_post Demo.Img _ Demo.pil Demo.web
      Demo.chroma_down Demo.llm Demo.repr Demo.converter Demo.post_with_image
      "Facebook"
    = (Raise (OtherError "RateLimitError" "embeddings"), [Demo.earlier])
  ∧ (@SocialMediaConverter.convert_instagram_post Demo.Img _ Demo.pil Demo.web
      Demo.chroma Demo.llm_down Demo.repr Demo.converter Demo.post_with_image
      "Facebook").2
    = [Demo.earlier].
Proof.
  split; [|split].
  - apply (proj1 (@history_appended_only_on_success Demo.Img _ Demo.pil
             Demo.web Demo.chroma Demo.llm Demo.repr Demo.converter
             Demo.post_with_image "Facebook")
             "New post: hello #world"
             (Some (Demo.mkImg None 2048 1536))).
    vm_compute. reflexivity.
  - apply (proj1 (proj2 (@history_appended_only_on_success Demo.Img _ Demo.pil
             Demo.web Demo.chroma_down Demo.llm Demo.repr Demo.converter
             Demo.post_with_image "Facebook"))).
    vm_compute. reflexivity.
  - apply (proj2 (proj2 (proj2 (@history_appended_only_on_success Demo.Img _
             Demo.pil Demo.web Demo.chroma Demo.llm_down Demo.repr
             Demo.converter Demo.post_with_image "Facebook")))
             (OtherError "APIConnectionError" "reset")).
    vm_compute. reflexivity.
Defined.

(** C8: when the corpus directory loads to no document at all, construction
    raises [ValueError("No documents found in ...")] right after the load:
    no converter object comes back, and the calls made so far are the
    environment load and the document load only, so nothing was split and no
    vector store was created. *)
Theorem empty_corpus_fails_construction
    {Store : Type} {chroma : Chroma Store} {startup : Startup}
    (db_dir env_path : string) :
  directory_load db_dir = Ok [] →
  SocialMediaConverter.__init__ (Store := Store) db_dir env_path
    = ([SocialMediaConverter.LoadEnv env_path;
        SocialMediaConverter.LoadDocuments db_dir],
       Raise (ValueError ("No documents found in " +:+ db_dir)))
  ∧ ∀ n, SocialMediaConverter.CreateVectorstore n
           ∉ (SocialMediaConverter.__init__ (Store := Store) db_dir env_path).1.
Proof.
  intros Hload.
  assert (Hinit : SocialMediaConverter.__init__ (Store := Store) db_dir env_path
    = ([SocialMediaConverter.LoadEnv env_path;
        SocialMediaConverter.LoadDocuments db_dir],
       Raise (ValueError ("No documents found in " +:+ db_dir)))).
  { unfold SocialMediaConverter.__init__, SocialMediaConverter.load_documents.
    rewrite Hload. reflexivity. }
  split; [exact Hinit|].
  intros n. rewrite Hinit. simpl.
  rewrite !elem_of_cons, elem_of_nil. intros [|[|[]]]; discriminate.
Qed.

Lemma empty_corpus_fails_construction_witness :
  (@SocialMediaConverter.__init__ _ Demo.chroma Demo.startup "empty" ".env").2
  = Raise (ValueError "No documents found in empty").
Proof.
  rewrite (proj1 (@empty_corpus_fails_construction _ Demo.chroma Demo.startup
                    "empty" ".env" eq_refl)).
  reflexivity.
Defined.








(** C10: the flag [convert_instagram_post] gives the chain is true exactly
    when the post has a non-empty [media_url] whose fetch returned an image.
    With such an image the call is the conversion made with the flag true,
    followed by the image step; without one (no [media_url], an empty one,
    or a fetch that raised) it is the conversion made with the flag false.
    So when the download of a URL fails, nothing is raised for it: the post
    is converted with the flag false, no image comes back, and the appended
    record still carries the URL. *)
Theorem image_flag_follows_download
    {Image Store : Type} {pil : PIL Image} {web : Web Image}
    {chroma : Chroma Store} {llm : ChatModel} {repr : PyRepr}
    (self : @SocialMediaConverter.t Store) (post : gmap string string)
    (target : string) :
  (SocialMediaConverter.bool_of (SocialMediaConverter.original_image_of post)
     = true
   ↔ ∃ url image,
       post !! "media_url" = Some url ∧ url ≠ ""
       ∧ fetch_image url = Ok image)
  ∧ (SocialMediaConverter.request_of post target !! "image_included"
     = Some (if SocialMediaConverter.bool_of
                  (SocialMediaConverter.original_image_of post)
             then "Yes" else "No"))
  ∧ (∀ url image,
       post !! "media_url" = Some url → url ≠ "" →
       fetch_image url = Ok image →
       SocialMediaConverter.convert_instagram_post self post target
       = match RAGChain.convert_post (SocialMediaConverter.rag_chain self)
                 (SocialMediaConverter.caption_of post) "Instagram" target
                 true with
         | Raise e => (Raise e, SocialMediaConverter.conversion_history self)
         | Ok text =>
             match SocialMediaConverter.process_image image target with
             | Raise e =>
                 (Raise e, SocialMediaConverter.conversion_history self)
             | Ok processed =>
                 (Ok (text, Some processed),
                  SocialMediaConverter.conversion_history self ++
                    [(SocialMediaConverter.caption_of post, "Instagram",
                      target, text, Some url)])
             end
         end)
  ∧ (post !! "media_url" = None ∨ post !! "media_url" = Some ""
     ∨ (∃ url e, post !! "media_url" = Some url ∧ fetch_image url = Raise e) →
     SocialMediaConverter.convert_instagram_post self post target
     = match RAGChain.convert_post (SocialMediaConverter.rag_chain self)
               (SocialMediaConverter.caption_of post) "Instagram" target
               false with
       | Raise e => (Raise e, SocialMediaConverter.conversion_history self)
       | Ok text =>
           (Ok (text, None),
            SocialMediaConverter.conversion_history self ++
              [(SocialMediaConverter.caption_of post, "Instagram", target,
                text, post !! "media_url")])
       end)
  ∧ (∀ url e text,
       post !! "media_url" = Some url → url ≠ "" →
       fetch_image url = Raise e →
       RAGChain.convert_post (SocialMediaConverter.rag_chain self)
         (SocialMediaConverter.caption_of post) "Instagram" target false
         = Ok text →
       SocialMediaConverter.convert_instagram_post self post target
       = (Ok (text, None),
          SocialMediaConverter.conversion_history self ++
            [(SocialMediaConverter.caption_of post, "Instagram", target, text,
              Some url)])).
Proof.
  assert (Hfetched : ∀ url image,
    post !! "media_url" = Some url → url ≠ "" → fetch_image url = Ok image →
    SocialMediaConverter.original_image_of post = Some image).
  { intros url image Hu Hne Hf. apply original_image_Some.
    exists url. split; [done|]. split; [done|].
    unfold InstagramAPI.download_image. by rewrite Hf. }
  assert (Hnone :
    post !! "media_url" = None ∨ post !! "media_url" = Some ""
    ∨ (∃ url e, post !! "media_url" = Some url ∧ fetch_image url = Raise e) →
    SocialMediaConverter.original_image_of post = None).
  { unfold SocialMediaConverter.original_image_of.
    intros [->|[->|(url & e & -> & He)]]; [done..|].
    destruct (SocialMediaConverter.truthy (Some url)); [|done].
    simpl. by apply download_image_fails with e. }
  split; [|split; [|split; [|split]]].
  - destruct (SocialMediaConverter.original_image_of post) as [image|] eqn:Hi;
      simpl.
    + apply original_image_Some in Hi as (url & Hu & Hne & Hd).
      split; [|done]. intros _. exists url, image.
      split; [done|]. split; [done|].
      unfold InstagramAPI.download_image in Hd.
      by destruct (fetch_image url) as [image'|e]; simplify_eq.
    + split; [done|]. intros (url & image & Hu & Hne & Hf).
      pose proof (Hfetched url image Hu Hne Hf) as Hi'. congruence.
  - unfold SocialMediaConverter.request_of.
    destruct (SocialMediaConverter.bool_of _); vm_compute; reflexivity.
  - intros url image Hu Hne Hf.
    unfold SocialMediaConverter.convert_instagram_post.
    rewrite (Hfetched url image Hu Hne Hf).
    cbn [SocialMediaConverter.bool_of].
    destruct (RAGChain.convert_post _ _ _ _ _) as [text|e]; [|done].
    destruct (SocialMediaConverter.process_image image target) as [processed|e];
      [|done].
    simpl. by rewrite Hu.
  - intros Hcase.
    unfold SocialMediaConverter.convert_instagram_post.
    rewrite (Hnone Hcase). cbn [SocialMediaConverter.bool_of].
    by destruct (RAGChain.convert_post _ _ _ _ _) as [text|e].
  - intros url e text Hu Hne He Hconv.
    assert (Hi : SocialMediaConverter.original_image_of post = None).
    { apply Hnone. right; right. by exists url, e. }
    rewrite (convert_instagram_post_no_image self post target text Hi Hconv).
    by rewrite Hu.
Qed.

Lemma image_flag_follows_download_witness :
  @SocialMediaConverter.convert_instagram_post Demo.Img _ Demo.pil Demo.web
    Demo.chroma Demo.llm_flag Demo.request_repr Demo.converter
    Demo.post_with_image "Facebook"
  = (Ok ("With the photo", Some (Demo.mkImg None 2048 1536)),
     [Demo.earlier;
      ("Check out my new product!", "Instagram", "Facebook",
       "With the photo", Some "https://cdn.example/a.jpg")])
  ∧ @SocialMediaConverter.convert_instagram_post Demo.Img _ Demo.pil Demo.web
      Demo.chroma Demo.llm_flag Demo.request_repr Demo.converter
      Demo.post_broken_image "Facebook"
    = (Ok ("Text only", None),
       [Demo.earlier;
        ("Check out my new product!", "Instagram", "Facebook",
         "Text only", Some "https://cdn.example/gone.jpg")]).
Proof.
  split.
  - rewrite (proj1 (proj2 (proj2 (@image_flag_follows_download Demo.Img _
               Demo.pil Demo.web Demo.chroma Demo.llm_flag Demo.request_repr
               Demo.converter Demo.post_with_image "Facebook")))
               "https://cdn.example/a.jpg" Demo.photo).
    + vm_compute. reflexivity.
    + vm_compute. reflexivity.
    + discriminate.
    + vm_compute. reflexivity.
  - apply (proj2 (proj2 (proj2 (proj2 (@image_flag_follows_download Demo.Img _
             Demo.pil Demo.web Demo.chroma Demo.llm_flag Demo.request_repr
             Demo.converter Demo.post_broken_image "Facebook"))))
             "https://cdn.example/gone.jpg"
             (OtherError "ConnectionError" "https://cdn.example/gone.jpg")
             "Text only").
    + vm_compute. reflexivity.
    + discriminate.
    + vm_compute. reflexivity.
    + vm_compute. reflexivity.
Defined.

(** ** The chunker *)

Section CeilDiv.
Import Chunker.

Lemma ceil_div_one y d : 0 < y → y ≤ d → ceil_div y d = 1.
Proof.
  intros Hy Hd. unfold ceil_div. symmetry.
  apply (Nat.div_unique _ _ _ (y - 1)); lia.
Qed.

Lemma ceil_div_step x d : 0 < d → d < x → ceil_div x d = S (ceil_div (x - d) d).
Proof.
  intros Hd Hx. unfold ceil_div.
  replace (x + d - 1) with ((x - d + d - 1) + 1 * d) by lia.
  rewrite Nat.div_add by lia. lia.
Qed.

(** [ceil_div x d] is the least [n] with [x ≤ n * d]. *)
Lemma ceil_div_bounds x d :
  0 < d → 0 < x → (ceil_div x d - 1) * d < x ∧ x ≤ ceil_div x d * d.
Proof.
  intros Hd Hx. unfold ceil_div.
  pose proof (Nat.div_mod (x + d - 1) d ltac:(lia)) as Hdm.
  pose proof (Nat.mod_upper_bound (x + d - 1) d ltac:(lia)) as Hm.
  assert (1 ≤ (x + d - 1) / d).
  { apply Nat.div_le_lower_bound; lia. }
  nia.
Qed.

End CeilDiv.

Section ScanFacts.
Context {A : Type}.
Variable (C O : nat).
Hypothesis overlap_below_size : O < C.
Import Chunker.

Implicit Types content : list A.

Lemma drop_take_swap content n m :
  n ≤ m → drop n (take m content) = take (m - n) (drop n content).
Proof.
  intros Hnm. rewrite take_drop_commute. do 2 f_equal. lia.
Qed.

Lemma length_scan fuel start content :
  length content - start < fuel →
  length (scan C O fuel start content) =
  if decide (length content ≤ start + C) then 1
  else ceil_div (length content - start - O) (C - O).
Proof.
  revert start. induction fuel as [|fuel IH]; intros start Hfuel; [lia|].
  simpl. destruct (decide (length content ≤ start + C)) as [Hle|Hgt]; [done|].
  simpl. rewrite IH by lia.
  rewrite (ceil_div_step (length content - start - O)) by lia.
  destruct (decide (length content ≤ start + (C - O) + C)).
  - rewrite ceil_div_one by lia. done.
  - do 2 f_equal. lia.
Qed.

Lemma scan_lookup fuel start content i w :
  scan C O fuel start content !! i = Some w →
  w = (start + i * (C - O), take C (drop (start + i * (C - O)) content)).
Proof.
  revert start i. induction fuel as [|fuel IH]; intros start i; [done|].
  simpl. destruct i as [|i]; simpl.
  - intros [= <-]. by rewrite Nat.add_0_r.
  - destruct (decide (length content ≤ start + C)); [done|].
    intros Hw. apply IH in Hw. subst w.
    by replace (start + (C - O) + i * (C - O))
      with (start + (C - O + i * (C - O))) by lia.
Qed.

(** A window that has a successor ends before the content does. *)
Lemma scan_lookup_next fuel start content i w :
  scan C O fuel start content !! S i = Some w →
  start + i * (C - O) + C < length content.
Proof.
  revert start i. induction fuel as [|fuel IH]; intros start i; [done|].
  simpl. destruct (decide (length content ≤ start + C)); [done|].
  destruct i as [|i].
  - intros _. lia.
  - intros Hw. apply IH in Hw. lia.
Qed.

(** Past the first window, the parts left after dropping the overlap tile
    the rest of the content. *)
Lemma scan_tiles fuel start content :
  length content - start < fuel →
  start + O ≤ length content →
  concat (drop O <$> (snd <$> scan C O fuel start content))
  = drop (start + O) content.
Proof.
  revert start. induction fuel as [|fuel IH]; intros start Hfuel Hstart; [lia|].
  simpl. rewrite drop_take_swap, drop_drop by lia.
  destruct (decide (length content ≤ start + C)) as [Hle|Hgt]; simpl.
  - rewrite app_nil_r. apply take_ge. rewrite length_drop. lia.
  - rewrite IH by lia.
    replace (start + (C - O) + O) with ((start + O) + (C - O)) by lia.
    rewrite <- (drop_drop content (C - O) (start + O)). apply take_drop.
Qed.

Lemma windows_cons content :
  ∃ rest, windows C O content = (0, take C content) :: rest.
Proof. unfold windows. simpl. eauto. Qed.

Lemma windows_reassemble content :
  match snd <$> windows C O content with
  | [] => []
  | c :: cs => c ++ concat (drop O <$> cs)
  end = content.
Proof.
  unfold windows. simpl.
  destruct (decide (length content ≤ C)) as [Hle|Hgt]; simpl.
  - rewrite app_nil_r. apply take_ge. lia.
  - rewrite scan_tiles by lia.
    replace (C - O + O) with C by lia. apply take_drop.
Qed.

Lemma length_windows content :
  length (windows C O content) =
  if decide (length content ≤ C) then 1
  else ceil_div (length content - O) (C - O).
Proof.
  unfold windows. rewrite length_scan by lia.
  rewrite Nat.add_0_l, Nat.sub_0_r. done.
Qed.

End ScanFacts.

Section ChunkerFacts.
Import Chunker.

Abbreviation to_string := String.string_of_list_ascii.
Abbreviation to_list := String.list_ascii_of_string.

Lemma to_string_app l1 l2 : to_string (l1 ++ l2) = to_string l1 +:+ to_string l2.
Proof.
  induction l1 as [|c l1 IH]; [done|].
  simpl. by rewrite IH, StrFacts.append_cons.
Qed.

Lemma length_to_list s : length (to_list s) = String.length s.
Proof. induction s as [|c s IH]; simpl; congruence. Qed.

Lemma length_to_string l : String.length (to_string l) = length l.
Proof. induction l as [|c l IH]; simpl; congruence. Qed.

Lemma to_string_concat ls :
  foldr String.app "" (to_string <$> ls) = to_string (concat ls).
Proof.
  induction ls as [|l ls IH]; [done|].
  change (to_string l +:+ foldr String.app "" (to_string <$> ls)
          = to_string (l ++ concat ls)).
  by rewrite IH, to_string_app.
Qed.

(** [s[n:n+m]] on the character list. *)
Lemma substring_take_drop n m s :
  String.substring n m s = to_string (take m (drop n (to_list s))).
Proof.
  revert m s. induction n as [|n IHn]; intros m s.
  - rewrite drop_0. revert s. induction m as [|m IHm]; intros [|c s]; simpl;
      try done.
    by rewrite IHm.
  - destruct s as [|c s]; simpl; [by destruct m|]. apply IHn.
Qed.

Lemma length_substring n m s :
  String.length (String.substring n m s) = m `min` (String.length s - n).
Proof.
  rewrite substring_take_drop, length_to_string, length_take, length_drop.
  by rewrite length_to_list.
Qed.

Lemma substring_substring n m k j s :
  k + j ≤ m →
  String.substring k j (String.substring n m s) = String.substring (n + k) j s.
Proof.
  intros Hk. rewrite !substring_take_drop.
  rewrite String.list_ascii_of_string_of_list_ascii.
  rewrite <- drop_drop. f_equal.
  rewrite take_drop_commute, take_take.
  rewrite (take_drop_commute _ j k). do 2 f_equal. lia.
Qed.

Variable ts : Chunker.t.
Hypothesis overlap_below_size : chunk_overlap ts < chunk_size ts.

Lemma drop_overlap_to_string l :
  drop_overlap ts (to_string l) = to_string (drop (chunk_overlap ts) l).
Proof.
  unfold drop_overlap. by rewrite String.list_ascii_of_string_of_list_ascii.
Qed.

Lemma contents_split_text text :
  (split_text ts text).*2
  = to_string <$> (windows (chunk_size ts) (chunk_overlap ts) (to_list text)).*2.
Proof.
  unfold split_text. rewrite <- !list_fmap_compose.
  apply list_fmap_ext. by intros _ [s w] _.
Qed.

Lemma length_split_text text :
  length (split_text ts text) =
  if decide (String.length text ≤ chunk_size ts) then 1
  else ceil_div (String.length text - chunk_overlap ts)
         (chunk_size ts - chunk_overlap ts).
Proof.
  unfold split_text.
  rewrite length_fmap, length_windows, length_to_list by done. done.
Qed.

Lemma reassemble_split_text text :
  reassemble ts (split_text ts text).*2 = text.
Proof.
  rewrite contents_split_text.
  pose proof (windows_reassemble (chunk_size ts) (chunk_overlap ts)
                overlap_below_size (to_list text)) as Hre.
  destruct ((windows _ _ (to_list text)).*2) as [|c cs]; simpl in *.
  - rewrite <- (String.string_of_list_ascii_of_string text), <- Hre. done.
  - rewrite <- list_fmap_compose.
    rewrite (list_fmap_ext (drop_overlap ts ∘ to_string)
               (to_string ∘ drop (chunk_overlap ts)) cs)
      by (intros; apply drop_overlap_to_string).
    rewrite list_fmap_compose, to_string_concat, <- to_string_app, Hre.
    apply String.string_of_list_ascii_of_string.
Qed.

Lemma split_text_short text :
  String.length text ≤ chunk_size ts → split_text ts text = [(0, text)].
Proof.
  intros Hshort. unfold split_text, windows. simpl.
  rewrite length_to_list, decide_True by lia. simpl.
  unfold prod_map. simpl.
  rewrite drop_0, take_ge by (rewrite length_to_list; lia).
  by rewrite String.string_of_list_ascii_of_string.
Qed.

Lemma split_text_lookup text i w :
  split_text ts text !! i = Some w →
  w = (i * (chunk_size ts - chunk_overlap ts),
       String.substring (i * (chunk_size ts - chunk_overlap ts))
         (chunk_size ts) text).
Proof.
  unfold split_text, windows. rewrite list_lookup_fmap.
  destruct (scan _ _ _ _ _ !! i) as [w'|] eqn:Hi; [|done].
  apply scan_lookup in Hi; [|done]. subst w'. simpl. intros [= <-].
  unfold prod_map. simpl. by rewrite substring_take_drop.
Qed.

Lemma split_text_lookup_next text i w :
  split_text ts text !! S i = Some w →
  i * (chunk_size ts - chunk_overlap ts) + chunk_size ts < String.length text.
Proof.
  unfold split_text, windows. rewrite list_lookup_fmap.
  destruct (scan _ _ _ _ _ !! S i) as [w'|] eqn:Hi; [|done].
  apply scan_lookup_next in Hi; [|done].
  rewrite length_to_list in Hi. intros _. lia.
Qed.

End ChunkerFacts.

Section SplitDocumentFacts.
Import Chunker.
Variable ts : Chunker.t.
Hypothesis overlap_below_size : chunk_overlap ts < chunk_size ts.

Lemma contents_split_document doc :
  page_content <$> split_document ts doc = (split_text ts (page_content doc)).*2.
Proof.
  unfold split_document. rewrite <- list_fmap_compose.
  by apply list_fmap_ext.
Qed.

Lemma length_split_document doc :
  length (split_document ts doc) = length (split_text ts (page_content doc)).
Proof. unfold split_document. apply length_fmap. Qed.

Lemma split_document_lookup doc i c :
  split_document ts doc !! i = Some c →
  c = chunk_of ts doc
        (i * (chunk_size ts - chunk_overlap ts),
         String.substring (i * (chunk_size ts - chunk_overlap ts))
           (chunk_size ts) (page_content doc)).
Proof.
  unfold split_document. rewrite list_lookup_fmap.
  destruct (split_text ts (page_content doc) !! i) as [w|] eqn:Hi; [|done].
  apply split_text_lookup in Hi; [|done]. subst w. by intros [= <-].
Qed.

Lemma split_document_lookup_next doc i c :
  split_document ts doc !! S i = Some c →
  i * (chunk_size ts - chunk_overlap ts) + chunk_size ts
  < String.length (page_content doc).
Proof.
  unfold split_document. rewrite list_lookup_fmap.
  destruct (split_text ts (page_content doc) !! S i) as [w|] eqn:Hi; [|done].
  intros _. by apply split_text_lookup_next in Hi.
Qed.

Lemma start_index_chunk_of doc w :
  add_start_index ts = true →
  metadata (chunk_of ts doc w) !! "start_index" = Some (MInt w.1).
Proof. intros Hadd. unfold chunk_of. rewrite Hadd. apply lookup_insert_eq. Qed.

(** Two neighbouring chunks of one document: the first is full, the second
    starts [chunk_size - chunk_overlap] later and reaches past the overlap,
    and they agree on the [chunk_overlap] characters they share. *)
Lemma neighbours_overlap doc i c1 c2 :
  split_document ts doc !! i = Some c1 →
  split_document ts doc !! S i = Some c2 →
  String.length (page_content c1) = chunk_size ts
  ∧ chunk_overlap ts < String.length (page_content c2)
  ∧ String.substring (chunk_size ts - chunk_overlap ts) (chunk_overlap ts)
      (page_content c1)
    = String.substring 0 (chunk_overlap ts) (page_content c2).
Proof.
  intros H1 H2.
  pose proof (split_document_lookup_next _ _ _ H2) as Hnext.
  apply split_document_lookup in H1, H2. subst c1 c2. simpl.
  rewrite !length_substring, !substring_substring by lia.
  split; [lia|]. split; [lia|]. f_equal. lia.
Qed.

End SplitDocumentFacts.

Lemma create_text_splitter :
  Chunker.create 1000 50 true = Ok SocialMediaConverter.text_splitter.
Proof. vm_compute. reflexivity. Qed.

Lemma split_documents_by_document docs :
  SocialMediaConverter.split_documents docs
  = Ok (docs ≫= Chunker.split_document SocialMediaConverter.text_splitter).
Proof.
  unfold SocialMediaConverter.split_documents.
  rewrite create_text_splitter. reflexivity.
Qed.

Lemma text_splitter_overlap_below_size :
  Chunker.chunk_overlap SocialMediaConverter.text_splitter
  < Chunker.chunk_size SocialMediaConverter.text_splitter.
Proof. vm_compute. lia. Qed.

(** C2: with chunk size 1000 and overlap 50, a document of content length
    [L] splits into one chunk, the whole content, when [L ≤ 1000], and into
    ceil((L - 50) / 950) chunks when [L > 1000] (the least [n] with
    [L - 50 ≤ n * 950]); and the first chunk followed by the later chunks
    without their first 50 characters is the content again. *)
Theorem chunk_count_and_reassembly (doc : Document) :
  Chunker.create 1000 50 true = Ok SocialMediaConverter.text_splitter
  ∧ SocialMediaConverter.split_documents [doc]
    = Ok (Chunker.split_document SocialMediaConverter.text_splitter doc)
  ∧ (String.length (page_content doc) ≤ 1000 →
     page_content <$> Chunker.split_document SocialMediaConverter.text_splitter doc
     = [page_content doc])
  ∧ (1000 < String.length (page_content doc) →
     length (Chunker.split_document SocialMediaConverter.text_splitter doc)
     = Chunker.ceil_div (String.length (page_content doc) - 50) (1000 - 50)
     ∧ (length (Chunker.split_document SocialMediaConverter.text_splitter doc) - 1)
         * 950 < String.length (page_content doc) - 50
     ∧ String.length (page_content doc) - 50
       ≤ length (Chunker.split_document SocialMediaConverter.text_splitter doc)
           * 950)
  ∧ Chunker.reassemble SocialMediaConverter.text_splitter
      (page_content <$> Chunker.split_document SocialMediaConverter.text_splitter doc)
    = page_content doc.
Proof.
  pose proof text_splitter_overlap_below_size as Hts.
  split; [apply create_text_splitter|].
  split; [rewrite split_documents_by_document; simpl; by rewrite app_nil_r|].
  split; [|split].
  - intros Hshort. rewrite contents_split_document.
    by rewrite split_text_short.
  - intros Hlong.
    assert (Hlen : length (Chunker.split_document SocialMediaConverter.text_splitter doc)
      = Chunker.ceil_div (String.length (page_content doc) - 50) 950).
    { rewrite length_split_document, length_split_text by done.
      rewrite decide_False; [reflexivity|].
      change (Chunker.chunk_size SocialMediaConverter.text_splitter) with 1000.
      lia. }
    split; [exact Hlen|]. rewrite Hlen.
    apply ceil_div_bounds; lia.
  - rewrite contents_split_document. by apply reassemble_split_text.
Qed.

Lemma chunk_count_and_reassembly_witness :
  length (Chunker.split_document SocialMediaConverter.text_splitter
            Demo.long_guide) = 3
  ∧ page_content <$> Chunker.split_document SocialMediaConverter.text_splitter
                       (Demo.guide "Use short sentences.")
    = ["Use short sentences."].
Proof.
  split.
  - assert (Hlong : 1000 < String.length (page_content Demo.long_guide))
      by (vm_compute; lia).
    rewrite (proj1 (proj1 (proj2 (proj2 (proj2
               (chunk_count_and_reassembly Demo.long_guide)))) Hlong)).
    vm_compute. reflexivity.
  - apply (proj1 (proj2 (proj2
             (chunk_count_and_reassembly (Demo.guide "Use short sentences."))))).
    vm_compute. lia.
Defined.

(** C3: [split_documents] splits document by document, and within one
    document two consecutive chunks overlap by exactly 50 characters: the
    first is 1000 long, the second starts 950 later and is longer than 50,
    and the last 50 characters of the first are the first 50 of the second.
    Nothing ties the last chunk of a document to the first chunk of the
    next. *)
Theorem consecutive_chunks_overlap
    (docs : list Document) (doc : Document) (i : nat) (c1 c2 : Document) :
  Chunker.split_document SocialMediaConverter.text_splitter doc !! i = Some c1 →
  Chunker.split_document SocialMediaConverter.text_splitter doc !! S i = Some c2 →
  SocialMediaConverter.split_documents docs
    = Ok (docs ≫= Chunker.split_document SocialMediaConverter.text_splitter)
  ∧ metadata c1 !! "start_index" = Some (MInt (i * 950))
  ∧ metadata c2 !! "start_index" = Some (MInt (i * 950 + 950))
  ∧ String.length (page_content c1) = 1000
  ∧ 50 < String.length (page_content c2)
  ∧ String.substring 950 50 (page_content c1)
    = String.substring 0 50 (page_content c2).
Proof.
  intros H1 H2.
  pose proof text_splitter_overlap_below_size as Hts.
  split; [apply split_documents_by_document|].
  pose proof (neighbours_overlap _ Hts doc i c1 c2 H1 H2) as (Hl1 & Hl2 & Hov).
  apply split_document_lookup in H1, H2; [|done..].
  split; [|split; [|split; [|split]]].
  - subst c1. by rewrite start_index_chunk_of.
  - subst c2. rewrite start_index_chunk_of by done. simpl.
    do 2 f_equal.
    change (Chunker.chunk_size SocialMediaConverter.text_splitter
            - Chunker.chunk_overlap SocialMediaConverter.text_splitter)
      with 950.
    lia.
  - exact Hl1.
  - exact Hl2.
  - exact Hov.
Qed.

Lemma consecutive_chunks_overlap_witness :
  ∃ c1 c2,
    Chunker.split_document SocialMediaConverter.text_splitter Demo.long_guide
      !! 1 = Some c1
    ∧ Chunker.split_document SocialMediaConverter.text_splitter Demo.long_guide
      !! 2 = Some c2
    ∧ metadata c1 !! "start_index" = Some (MInt 950)
    ∧ metadata c2 !! "start_index" = Some (MInt 1900)
    ∧ String.length (page_content c1) = 1000.
Proof.
  destruct (Chunker.split_document SocialMediaConverter.text_splitter
              Demo.long_guide !! 1) as [c1|] eqn:H1;
    [|vm_compute in H1; discriminate].
  destruct (Chunker.split_document SocialMediaConverter.text_splitter
              Demo.long_guide !! 2) as [c2|] eqn:H2;
    [|vm_compute in H2; discriminate].
  exists c1, c2. split; [reflexivity|]. split; [reflexivity|].
  destruct (consecutive_chunks_overlap [Demo.long_guide] Demo.long_guide 1
              c1 c2 H1 H2) as (_ & Hs1 & Hs2 & Hlen & _).
  split; [exact Hs1|]. split; [exact Hs2|]. exact Hlen.
Defined.

(** ** The embedding index *)

Section IndexFacts.
Context {Vector : Type} `{Embedding Vector}.
Import EmbeddingIndex.

Lemma outranks_refl a : outranks a a.
Proof. apply Qle_refl. Qed.

Lemma outranks_trans a b c : outranks a b → outranks b c → outranks a c.
Proof. unfold outranks. intros Hab Hbc. by apply Qle_trans with b.2. Qed.

Lemma length_insert_desc x l : length (insert_desc x l) = S (length l).
Proof.
  induction l as [|y l IH]; [done|].
  simpl. destruct (Qle_bool y.2 x.2); simpl; congruence.
Qed.

Lemma length_sort_desc l : length (sort_desc l) = length l.
Proof.
  induction l as [|x l IH]; [done|].
  simpl. by rewrite length_insert_desc, IH.
Qed.

Lemma Forall_insert_desc (P : Document * Q → Prop) x l :
  P x → Forall P l → Forall P (insert_desc x l).
Proof.
  intros Hx. induction 1 as [|y l Hy Hl IH]; simpl.
  - by constructor.
  - destruct (Qle_bool y.2 x.2); repeat constructor; auto.
Qed.

Lemma insert_desc_sorted x l :
  StronglySorted outranks l → StronglySorted outranks (insert_desc x l).
Proof.
  induction 1 as [|y l Hl IH Hy]; simpl.
  - repeat constructor.
  - destruct (Qle_bool y.2 x.2) eqn:Hle.
    + apply Qle_bool_iff in Hle.
      constructor; [by constructor|].
      constructor; [exact Hle|].
      eapply Forall_impl; [exact Hy|].
      intros z Hz. by apply outranks_trans with y.
    + constructor; [exact IH|].
      apply Forall_insert_desc; [|exact Hy].
      unfold outranks. apply Qlt_le_weak, Qnot_le_lt.
      intros Hc. apply Qle_bool_iff in Hc. congruence.
Qed.

Lemma sort_desc_sorted l : StronglySorted outranks (sort_desc l).
Proof.
  induction l as [|x l IH]; simpl; [constructor|].
  by apply insert_desc_sorted.
Qed.

Lemma sorted_lookup (l : list (Document * Q)) i j a b :
  StronglySorted outranks l → i ≤ j →
  l !! i = Some a → l !! j = Some b → outranks a b.
Proof.
  intros Hl. revert i j. induction Hl as [|x l Hl IH Hx]; intros i j Hij; [done|].
  destruct i as [|i], j as [|j]; simpl; try lia.
  - intros [= <-] [= <-]. apply outranks_refl.
  - intros [= <-] Hb. rewrite Forall_lookup in Hx. by apply Hx with j.
  - apply IH. lia.
Qed.

Lemma length_query (idx : Index) text k :
  length (query idx text k) = k `min` length idx.
Proof.
  unfold query, scored.
  by rewrite length_take, length_sort_desc, length_fmap.
Qed.

Lemma query_ranked (idx : Index) text k i j a b :
  i ≤ j →
  query idx text k !! i = Some a → query idx text k !! j = Some b →
  outranks a b.
Proof.
  unfold query. intros Hij [Ha _]%lookup_take_Some [Hb _]%lookup_take_Some.
  eapply sorted_lookup; eauto using sort_desc_sorted.
Qed.

Lemma length_build chunks : length (build chunks) = length chunks.
Proof. apply length_fmap. Qed.

End IndexFacts.

(** C5: a query for [k] chunks against a built index returns
    min(k, index size) of them, with scores that never increase along the
    answer; asking for 5 from an index of 2 chunks returns the 2. *)
Theorem retrieval_top_k
    {Vector : Type} {emb : Embedding Vector}
    (chunks : list Document) (text : string) (k : nat) :
  length (EmbeddingIndex.query (EmbeddingIndex.build chunks) text k)
    = k `min` length chunks
  ∧ length (EmbeddingIndex.retrieve (EmbeddingIndex.build chunks) k text)
    = k `min` length chunks
  ∧ (∀ i j a b,
       i ≤ j →
       EmbeddingIndex.query (EmbeddingIndex.build chunks) text k !! i = Some a →
       EmbeddingIndex.query (EmbeddingIndex.build chunks) text k !! j = Some b →
       Qle b.2 a.2)
  ∧ (length chunks = 2 →
     length (EmbeddingIndex.retrieve (EmbeddingIndex.build chunks) 5 text) = 2).
Proof.
  assert (Hlen : ∀ n,
    length (EmbeddingIndex.retrieve (EmbeddingIndex.build chunks) n text)
    = n `min` length chunks).
  { intros n. unfold EmbeddingIndex.retrieve.
    by rewrite length_fmap, length_query, length_build. }
  split; [by rewrite length_query, length_build|].
  split; [apply Hlen|]. split.
  - intros i j a b Hij Ha Hb. by apply (query_ranked _ _ _ _ _ _ _ Hij Ha Hb).
  - intros Htwo. rewrite Hlen, Htwo. reflexivity.
Qed.

Lemma retrieval_top_k_witness :
  EmbeddingIndex.retrieve (H := Demo.embedding)
    (EmbeddingIndex.build (H := Demo.embedding) Demo.corpus) 5
    "Hashtags: how many per post at most?"
  = [Demo.guide "Keep hashtags under five per post.";
     Demo.guide "Use short sentences."]
  ∧ length (EmbeddingIndex.retrieve (H := Demo.embedding)
              (EmbeddingIndex.build (H := Demo.embedding) Demo.corpus) 5
              "Hashtags: how many per post at most?") = 2.
Proof.
  split; [vm_compute; reflexivity|].
  apply (proj2 (proj2 (proj2 (@retrieval_top_k _ Demo.embedding Demo.corpus
           "Hashtags: how many per post at most?" 5)))).
  reflexivity.
Defined.

(** ** Fetching posts *)

Section FetchFacts.
Context `{Graph}.

Lemma get_recent_posts_cases user_id limit :
  InstagramAPI.get_recent_posts user_id limit = []
  ∨ ∃ media,
      graph_request ("/" +:+ user_id +:+ "/media")
        (Some (InstagramAPI.media_fields, limit)) = Ok media
      ∧ response_data media
        = Some (InstagramAPI.get_recent_posts user_id limit).
Proof.
  unfold InstagramAPI.get_recent_posts.
  destruct (graph_request _ _) as [media|e]; [|by left].
  destruct (response_data media) as [posts|] eqn:Hd; [|by left].
  right. by exists media.
Qed.

Lemma get_user_id_raises username e :
  InstagramAPI.get_user_id username = Raise e ↔
  (graph_request ("/" +:+ username) None = Raise e
   ∧ is_GraphAPIError e = false)
  ∨ (∃ response,
       graph_request ("/" +:+ username) None = Ok response
       ∧ response_fields response !! "id" = None
       ∧ e = KeyError "id").
Proof.
  unfold InstagramAPI.get_user_id.
  destruct (graph_request _ _) as [response|e'].
  - destruct (response_fields response !! "id") as [id|] eqn:Hid.
    + split; [done|]. intros [[? _]|(r & [= <-] & Hnone & _)]; congruence.
    + split.
      * intros [= <-]. right. by exists response.
      * intros [[? _]|(r & _ & _ & ->)]; done.
  - destruct (is_GraphAPIError e') eqn:Hg.
    + split; [done|]. intros [[[= ->] Hf]|(r & ? & _)]; congruence.
    + split.
      * intros [= <-]. by left.
      * intros [[[= ->] _]|(r & ? & _)]; done.
Qed.

End FetchFacts.

(** X1: [get_instagram_posts] raises in two cases only: the user lookup
    raised something that is not a [GraphAPIError], which comes through
    unchanged, or the lookup's answer has no [id], which is a [KeyError]. *)
Theorem get_instagram_posts_raises_iff `{Graph}
    (username : string) (limit : Z) (e : PyError) :
  SocialMediaConverter.get_instagram_posts username limit = Raise e ↔
  (graph_request ("/" +:+ username) None = Raise e
   ∧ is_GraphAPIError e = false)
  ∨ (∃ response,
       graph_request ("/" +:+ username) None = Ok response
       ∧ response_fields response !! "id" = None
       ∧ e = KeyError "id").
Proof.
  rewrite <- get_user_id_raises.
  unfold SocialMediaConverter.get_instagram_posts.
  destruct (InstagramAPI.get_user_id username) as [[[|c id]|]|e']; simpl;
    split; congruence.
Qed.

(** X2: when [get_instagram_posts] returns posts at all, the lookup
    answered with a non-empty [id] and the posts are the [data] of the
    media request made for that id with the given [limit]. *)
Theorem get_instagram_posts_nonempty `{Graph}
    (username : string) (limit : Z) (posts : list (gmap string string)) :
  SocialMediaConverter.get_instagram_posts username limit = Ok posts →
  posts ≠ [] →
  ∃ response id media,
    graph_request ("/" +:+ username) None = Ok response
    ∧ response_fields response !! "id" = Some id
    ∧ id ≠ ""
    ∧ graph_request ("/" +:+ id +:+ "/media")
        (Some (InstagramAPI.media_fields, limit)) = Ok media
    ∧ response_data media = Some posts.
Proof.
  unfold SocialMediaConverter.get_instagram_posts, InstagramAPI.get_user_id.
  destruct (graph_request ("/" +:+ username) None) as [response|e] eqn:Hreq;
    simpl.
  - destruct (response_fields response !! "id") as [[|c id]|] eqn:Hid; simpl.
    + by intros [= <-].
    + intros [= <-] Hne.
      destruct (get_recent_posts_cases (String c id) limit)
        as [Hempty|(media & Hmedia & Hdata)]; [done|].
      by exists response, (String c id), media.
    + done.
  - destruct (is_GraphAPIError e); simpl; [|done]. by intros [= <-].
Qed.

Lemma get_instagram_posts_nonempty_witness :
  ∃ response id media,
    graph_request (Graph := Demo.graph) ("/" +:+ "snaps") None = Ok response
    ∧ response_fields response !! "id" = Some id
    ∧ id ≠ ""
    ∧ graph_request (Graph := Demo.graph) ("/" +:+ id +:+ "/media")
        (Some (InstagramAPI.media_fields, 5%Z)) = Ok media
    ∧ response_data media
      = Some [Demo.post_with_image; Demo.post_broken_image].
Proof.
  apply (get_instagram_posts_nonempty (H := Demo.graph) "snaps" 5
           [Demo.post_with_image; Demo.post_broken_image]).
  - vm_compute. reflexivity.
  - discriminate.
Defined.

(** X3: once the lookup has answered with a non-empty [id],
    [get_instagram_posts] returns: a media request that raises, whatever the
    error, or that answers without [data], gives the empty list. *)
Theorem get_instagram_posts_swallows_media_errors `{Graph}
    (username : string) (limit : Z) (response : GraphResponse) (id : string) :
  graph_request ("/" +:+ username) None = Ok response →
  response_fields response !! "id" = Some id →
  id ≠ "" →
  ∃ posts,
    SocialMediaConverter.get_instagram_posts username limit = Ok posts
    ∧ (∀ e, graph_request ("/" +:+ id +:+ "/media")
              (Some (InstagramAPI.media_fields, limit)) = Raise e →
            posts = [])
    ∧ (∀ media, graph_request ("/" +:+ id +:+ "/media")
                  (Some (InstagramAPI.media_fields, limit)) = Ok media →
                posts = default [] (response_data media)).
Proof.
  intros Hreq Hid Hne.
  exists (InstagramAPI.get_recent_posts id limit). split; [|split].
  - unfold SocialMediaConverter.get_instagram_posts, InstagramAPI.get_user_id.
    rewrite Hreq, Hid. simpl. by destruct id.
  - intros e He. unfold InstagramAPI.get_recent_posts. by rewrite He.
  - intros media Hm. unfold InstagramAPI.get_recent_posts. by rewrite Hm.
Qed.

Lemma get_instagram_posts_swallows_media_errors_witness :
  SocialMediaConverter.get_instagram_posts (H5 := Demo.graph) "locked" 5
  = Ok [].
Proof.
  destruct (get_instagram_posts_swallows_media_errors (H := Demo.graph)
              "locked" 5 (mkResponse {[ "id" := "999" ]} None) "999")
    as (posts & Hposts & Hraise & _).
  - vm_compute. reflexivity.
  - vm_compute. reflexivity.
  - discriminate.
  - rewrite Hposts. f_equal.
    apply (Hraise (OtherError "ConnectionError" "/999/media")).
    vm_compute. reflexivity.
Defined.

(** ** Saving and uploading the history *)

Section SaveFacts.
Context {Store : Type} `{Files} `{Sqlite}.
Import SocialMediaConverter.

Lemma write_record_from f record :
  write_record f record = f +:+ write_record "" record.
Proof.
  destruct record as [[[[input_post source] target] converted_post] image_url].
  unfold write_record. destruct (truthy image_url);
    rewrite ?StrFacts.append_nil_l, ?StrFacts.append_assoc; reflexivity.
Qed.

Lemma foldl_write_record_from f history :
  foldl write_record f history = f +:+ foldl write_record "" history.
Proof.
  revert f. induction history as [|record history IH]; intros f; simpl.
  - by rewrite StrFacts.append_nil_r.
  - rewrite IH, (IH (write_record "" record)), (write_record_from f).
    by rewrite StrFacts.append_assoc.
Qed.

Lemma foldl_write_record_app history1 history2 :
  foldl write_record "" (history1 ++ history2)
  = foldl write_record "" history1 +:+ foldl write_record "" history2.
Proof. by rewrite foldl_app, foldl_write_record_from. Qed.

Lemma save_conversion_history_opened (self : @t Store) filename files :
  open_for_writing filename = Ok () →
  save_conversion_history self filename files
  = (Ok (), <[filename := foldl write_record "" (conversion_history self)]> files).
Proof. intros Ho. unfold save_conversion_history. by rewrite Ho. Qed.

Lemma foldl_insert_record_app rows history :
  ∃ new,
    foldl insert_record rows history = rows ++ new
    ∧ row_record <$> new = history.
Proof.
  revert rows. induction history as [|record history IH]; intros rows; simpl.
  - exists []. by rewrite app_nil_r.
  - destruct (IH (insert_record rows record)) as (new & -> & Hnew).
    destruct record as [[[[input_post source] target] converted_post] image_url].
    unfold insert_record. eexists (_ :: new).
    split; [by rewrite <- app_assoc|].
    rewrite fmap_cons, Hnew. reflexivity.
Qed.

Lemma upload_to_database_connected (self : @t Store) db_name databases :
  sqlite_connect db_name = Ok () →
  upload_to_database self db_name databases
  = (Ok (),
     <[db_name := foldl insert_record (default [] (databases !! db_name))
                    (conversion_history self)]> databases).
Proof. intros Hc. unfold upload_to_database. by rewrite Hc. Qed.

Lemma upload_to_database_lookup (self : @t Store) db_name databases :
  sqlite_connect db_name = Ok () →
  (upload_to_database self db_name databases).2 !! db_name
  = Some (foldl insert_record (default [] (databases !! db_name))
            (conversion_history self)).
Proof.
  intros Hc. rewrite upload_to_database_connected by done.
  apply lookup_insert_eq.
Qed.

Lemma foldl_insert_record_NoDup rows history :
  (∀ ids, next_rowid ids ∉ ids) →
  NoDup (row_id <$> rows) →
  NoDup (row_id <$> foldl insert_record rows history).
Proof.
  intros Hfresh. revert rows.
  induction history as [|record history IH]; intros rows Hrows; [done|].
  simpl. apply IH.
  destruct record as [[[[input_post source] target] converted_post] image_url].
  unfold insert_record. rewrite fmap_app. simpl.
  apply NoDup_app. split; [done|]. split.
  - intros id Hid Hnew. apply list_elem_of_singleton in Hnew. subst id.
    by apply (Hfresh (row_id <$> rows)).
  - apply NoDup_singleton.
Qed.

End SaveFacts.

(** X4: what [save_conversion_history] writes grows with the history one
    block at a time: with one more record on the history, the saved text is
    the text saved before followed by that record's [Source] line, its
    [Target] line, an [Image] line when the URL is non-empty, and a blank
    line. *)
Theorem save_appends_one_block {Store : Type} `{Files}
    (self : @SocialMediaConverter.t Store) (filename : string)
    (files : gmap string string) (text : string)
    (input_post source target converted_post : string)
    (image_url : option string) :
  open_for_writing filename = Ok () →
  (SocialMediaConverter.save_conversion_history self filename files).2
    !! filename = Some text →
  SocialMediaConverter.save_conversion_history
    (SocialMediaConverter.with_history self
       (SocialMediaConverter.conversion_history self ++
          [(input_post, source, target, converted_post, image_url)]))
    filename files
  = (Ok (),
     <[filename :=
         text +:+ "Source (" +:+ source +:+ "): " +:+ input_post +:+ Str.nl
              +:+ "Target (" +:+ target +:+ "): " +:+ converted_post +:+ Str.nl
              +:+ match image_url with
                  | Some (String c url) => "Image: " +:+ String c url +:+ Str.nl
                  | _ => ""
                  end
              +:+ Str.nl]> files).
Proof.
  intros Hopen. rewrite !save_conversion_history_opened by done. simpl.
  rewrite lookup_insert_eq. intros [= <-].
  rewrite foldl_write_record_app. simpl. do 3 f_equal.
  unfold SocialMediaConverter.write_record.
  destruct image_url as [[|c url]|]; simpl;
    rewrite ?StrFacts.append_nil_l, ?StrFacts.append_assoc; reflexivity.
Qed.

Lemma save_appends_one_block_witness :
  (SocialMediaConverter.save_conversion_history (H6 := Demo.files)
     (SocialMediaConverter.with_history Demo.fresh_converter
        (SocialMediaConverter.conversion_history Demo.fresh_converter ++
           [("hi", "Instagram", "Thread", "hi there",
             Some "https://cdn.example/a.jpg")]))
     "history.txt" ∅).2 !! "history.txt"
  = Some ("Source (Instagram): hi" +:+ Str.nl +:+
          "Target (Thread): hi there" +:+ Str.nl +:+
          "Image: https://cdn.example/a.jpg" +:+ Str.nl +:+ Str.nl).
Proof.
  assert (Hsaved :
    (SocialMediaConverter.save_conversion_history (H6 := Demo.files)
       Demo.fresh_converter "history.txt" ∅).2 !! "history.txt" = Some "")
    by (vm_compute; reflexivity).
  rewrite (save_appends_one_block (H := Demo.files) Demo.fresh_converter
             "history.txt" ∅ "" "hi" "Instagram" "Thread" "hi there"
             (Some "https://cdn.example/a.jpg") eq_refl Hsaved).
  vm_compute. reflexivity.
Defined.

(** X5: [save_conversion_history] replaces the file: what the file held
    before does not matter, saving a second time changes nothing, and no
    other file is touched; and when the file cannot be opened the error
    comes through with the files as they were. *)
Theorem save_replaces_the_file {Store : Type} `{Files}
    (self : @SocialMediaConverter.t Store) (filename : string)
    (files : gmap string string) :
  (open_for_writing filename = Ok () →
   (∀ previous,
      SocialMediaConverter.save_conversion_history self filename
        (<[filename := previous]> files)
      = SocialMediaConverter.save_conversion_history self filename files)
   ∧ SocialMediaConverter.save_conversion_history self filename
       (SocialMediaConverter.save_conversion_history self filename files).2
     = SocialMediaConverter.save_conversion_history self filename files
   ∧ (∀ other, other ≠ filename →
        (SocialMediaConverter.save_conversion_history self filename files).2
          !! other = files !! other))
  ∧ (∀ e, open_for_writing filename = Raise e →
       SocialMediaConverter.save_conversion_history self filename files
       = (Raise e, files)).
Proof.
  split.
  - intros Hopen. split; [|split].
    + intros previous. rewrite !save_conversion_history_opened by done.
      by rewrite insert_insert_eq.
    + rewrite !save_conversion_history_opened by done. cbn [snd].
      by rewrite insert_insert_eq.
    + intros other Hne. rewrite save_conversion_history_opened by done.
      cbn [snd]. by rewrite lookup_insert_ne.
  - intros e He. unfold SocialMediaConverter.save_conversion_history.
    by rewrite He.
Qed.

Lemma save_replaces_the_file_witness :
  SocialMediaConverter.save_conversion_history (H6 := Demo.files)
    Demo.converter "history.txt" {[ "history.txt" := "stale" ]}
  = SocialMediaConverter.save_conversion_history (H6 := Demo.files)
      Demo.converter "history.txt" ∅.
Proof.
  apply (proj1 (proj1 (save_replaces_the_file (H := Demo.files) Demo.converter
                         "history.txt" ∅) eq_refl) "stale").
Defined.

(** X6: when the database opens, [upload_to_database] only adds rows: the
    table holds the rows it had (none if it was not there), followed by
    one new row per history record, in history order and with the record's
    five values; other databases are not touched. When it does not open,
    the error comes through and nothing changes. *)
Theorem upload_appends_rows {Store : Type} `{Sqlite}
    (self : @SocialMediaConverter.t Store) (db_name : string)
    (databases : gmap string (list SocialMediaConverter.Row)) :
  (sqlite_connect db_name = Ok () →
   (SocialMediaConverter.upload_to_database self db_name databases).1 = Ok ()
   ∧ (∃ new,
        (SocialMediaConverter.upload_to_database self db_name databases).2
          !! db_name
        = Some (default [] (databases !! db_name) ++ new)
        ∧ SocialMediaConverter.row_record <$> new
          = SocialMediaConverter.conversion_history self)
   ∧ ∀ other, other ≠ db_name →
       (SocialMediaConverter.upload_to_database self db_name databases).2
         !! other = databases !! other)
  ∧ (∀ e, sqlite_connect db_name = Raise e →
       SocialMediaConverter.upload_to_database self db_name databases
       = (Raise e, databases)).
Proof.
  split.
  - intros Hc.
    destruct (foldl_insert_record_app (default [] (databases !! db_name))
                (SocialMediaConverter.conversion_history self))
      as (new & Hrows & Hnew).
    split; [by rewrite upload_to_database_connected|]. split.
    + exists new. split; [|exact Hnew].
      by rewrite upload_to_database_lookup, Hrows.
    + intros other Hne. rewrite upload_to_database_connected by done.
      cbn [snd]. by rewrite lookup_insert_ne.
  - intros e He. unfold SocialMediaConverter.upload_to_database.
    by rewrite He.
Qed.

Lemma upload_appends_rows_witness :
  ∃ new,
    (SocialMediaConverter.upload_to_database (H7 := Demo.sqlite) Demo.converter
       "conversions.db" ∅).2 !! "conversions.db"
    = Some ([] ++ new)
    ∧ SocialMediaConverter.row_record <$> new = [Demo.earlier].
Proof.
  destruct (proj1 (proj2 (proj1 (upload_appends_rows (H := Demo.sqlite)
                                   Demo.converter "conversions.db" ∅) eq_refl)))
    as (new & Hrows & Hnew).
  exists new. split; [exact Hrows|exact Hnew].
Defined.

(** X7: [upload_to_database] does not look for records already stored:
    uploading the same history twice leaves every record in the table
    twice. *)
Theorem upload_twice_stores_twice {Store : Type} `{Sqlite}
    (self : @SocialMediaConverter.t Store) (db_name : string)
    (databases : gmap string (list SocialMediaConverter.Row)) :
  sqlite_connect db_name = Ok () →
  ∃ rows,
    (SocialMediaConverter.upload_to_database self db_name
       (SocialMediaConverter.upload_to_database self db_name databases).2).2
      !! db_name = Some rows
    ∧ SocialMediaConverter.row_record <$> rows
      = (SocialMediaConverter.row_record <$> default [] (databases !! db_name))
        ++ SocialMediaConverter.conversion_history self
        ++ SocialMediaConverter.conversion_history self.
Proof.
  intros Hc.
  eexists. split; [by apply upload_to_database_lookup|].
  rewrite upload_to_database_lookup by done. simpl.
  destruct (foldl_insert_record_app (default [] (databases !! db_name))
              (SocialMediaConverter.conversion_history self))
    as (new1 & -> & Hnew1).
  destruct (foldl_insert_record_app (default [] (databases !! db_name) ++ new1)
              (SocialMediaConverter.conversion_history self))
    as (new2 & -> & Hnew2).
  by rewrite !fmap_app, Hnew1, Hnew2, <- app_assoc.
Qed.

Lemma upload_twice_stores_twice_witness :
  ∃ rows,
    (SocialMediaConverter.upload_to_database (H7 := Demo.sqlite) Demo.converter
       "conversions.db"
       (SocialMediaConverter.upload_to_database (H7 := Demo.sqlite)
          Demo.converter "conversions.db" ∅).2).2 !! "conversions.db"
    = Some rows
    ∧ SocialMediaConverter.row_record <$> rows
      = (SocialMediaConverter.row_record <$> []) ++ [Demo.earlier]
        ++ [Demo.earlier].
Proof.
  destruct (upload_twice_stores_twice (H := Demo.sqlite) Demo.converter
              "conversions.db" ∅ eq_refl) as (rows & Hrows & Hrecords).
  exists rows. split; [exact Hrows|exact Hrecords].
Defined.

Lemma next_rowid_demo_fresh ids : next_rowid (Sqlite := Demo.sqlite) ids ∉ ids.
Proof.
  assert (Hmax : ∀ id, id ∈ ids → (id ≤ foldr Z.max 0 ids)%Z).
  { induction ids as [|x ids IH]; intros id; [by rewrite elem_of_nil|].
    rewrite elem_of_cons. simpl. intros [->|Hid]; [lia|].
    specialize (IH id Hid). lia. }
  intros Hin. apply Hmax in Hin. simpl in Hin. lia.
Qed.

(** X8: when SQLite never hands out a key that is in use, uploading keeps
    the row ids of the table pairwise distinct. *)
Theorem upload_keeps_ids_distinct {Store : Type} `{Sqlite}
    (self : @SocialMediaConverter.t Store) (db_name : string)
    (databases : gmap string (list SocialMediaConverter.Row))
    (rows : list SocialMediaConverter.Row) :
  (∀ ids, next_rowid ids ∉ ids) →
  NoDup (SocialMediaConverter.row_id <$> default [] (databases !! db_name)) →
  (SocialMediaConverter.upload_to_database self db_name databases).2
    !! db_name = Some rows →
  NoDup (SocialMediaConverter.row_id <$> rows).
Proof.
  intros Hfresh Hrows.
  destruct (sqlite_connect db_name) as [[]|e] eqn:Hc.
  - rewrite upload_to_database_lookup by done. intros [= <-].
    by apply foldl_insert_record_NoDup.
  - unfold SocialMediaConverter.upload_to_database. rewrite Hc. cbn [snd].
    intros Hl. by rewrite Hl in Hrows.
Qed.

Lemma upload_keeps_ids_distinct_witness :
  ∃ rows,
    (SocialMediaConverter.upload_to_database (H7 := Demo.sqlite) Demo.converter
       "conversions.db"
       (SocialMediaConverter.upload_to_database (H7 := Demo.sqlite)
          Demo.converter "conversions.db" ∅).2).2 !! "conversions.db"
    = Some rows
    ∧ SocialMediaConverter.row_id <$> rows = [1%Z; 2%Z]
    ∧ NoDup (SocialMediaConverter.row_id <$> rows).
Proof.
  eexists. split; [vm_compute; reflexivity|]. split; [vm_compute; reflexivity|].
  apply (upload_keeps_ids_distinct (H := Demo.sqlite) Demo.converter
           "conversions.db"
           (SocialMediaConverter.upload_to_database (H7 := Demo.sqlite)
              Demo.converter "conversions.db" ∅).2).
  - apply next_rowid_demo_fresh.
  - vm_compute. apply NoDup_singleton.
  - vm_compute. reflexivity.
Defined.

(** ** The conversion loop and the script *)

Section LoopFacts.
Context {Image Store : Type}.
Context `{PIL Image} `{Web Image} `{Chroma Store} `{ChatModel} `{PyRepr}.
Context `{Viewer Image}.
Import SocialMediaConverter.

Lemma convert_instagram_post_with_history (self : @t Store) history post target :
  convert_instagram_post (with_history self history) post target
  = ((convert_instagram_post self post target).1,
     match (convert_instagram_post self post target).1 with
     | Ok (text, _) => history ++ [record_of post target text]
     | Raise _ => history
     end).
Proof.
  unfold convert_instagram_post, with_history. simpl.
  destruct (RAGChain.convert_post _ _ _ _ _) as [text|e]; [|done].
  destruct (original_image_of post) as [image|]; simpl; [|done].
  by destruct (process_image image target).
Qed.

Lemma convert_each_Ok (self : @t Store) posts answers outs history' :
  convert_each self posts answers = (Ok outs, history') →
  length outs = length posts
  ∧ ∃ records,
      history' = conversion_history self ++ records
      ∧ length records = length posts
      ∧ ∀ i post target out,
          posts !! i = Some post → answers !! i = Some target →
          outs !! i = Some out →
          records !! i = Some (record_of post target out.1).
Proof.
  revert self answers outs history'.
  induction posts as [|post posts IH]; intros self answers outs history'.
  - simpl. intros [= <- <-]. split; [done|]. exists [].
    by rewrite app_nil_r.
  - simpl. destruct answers as [|target answers]; [done|].
    destruct (convert_instagram_post self post target) as [[[text image]|e] h1]
      eqn:Hcall; [|done].
    apply convert_instagram_post_inv in Hcall as [_ ->].
    destruct (show_processed _) as [[]|e]; [|done].
    destruct (convert_each _ posts answers) as [[rest|e] h2] eqn:Hrest; [|done].
    intros [= <- <-].
    apply IH in Hrest as (Hlen & records & -> & Hrecords & Hlookup).
    split; [simpl; congruence|].
    exists (record_of post target text :: records).
    split; [simpl; by rewrite <- app_assoc|]. split; [simpl; congruence|].
    intros [|i] post' target' out; simpl.
    + by intros [= <-] [= <-] [= <-].
    + apply Hlookup.
Qed.

(** X10: when the loop raises, [conversion_history] is the history from
    before followed by one record per post converted so far, in post order,
    each holding the caption of its post, "Instagram", the answer given for
    it, the text the chain returned for it and its [media_url]. The loop
    stopped right after them: either no answer was left for the next post
    ([EOFError]), or the conversion of the next post raised the error, or
    the viewer raised it on the image of the last post recorded, whose
    record stays on the history. *)
Theorem loop_failure_keeps_earlier_records (self : @t Store)
    (posts : list (gmap string string)) (answers : list string) (e : PyError)
    (history' : list ConversionRecord) :
  convert_each self posts answers = (Raise e, history') →
  ∃ records,
    history' = conversion_history self ++ records
    ∧ length records ≤ length posts
    ∧ (∀ i record,
         records !! i = Some record →
         ∃ post target text,
           posts !! i = Some post ∧ answers !! i = Some target
           ∧ RAGChain.convert_post (rag_chain self) (caption_of post)
               "Instagram" target (bool_of (original_image_of post)) = Ok text
           ∧ record = (caption_of post, "Instagram", target, text,
                       post !! "media_url"))
    ∧ ((∃ post,
          posts !! length records = Some post
          ∧ answers !! length records = None
          ∧ e = OtherError "EOFError" "EOF when reading a line")
       ∨ (∃ post target,
            posts !! length records = Some post
            ∧ answers !! length records = Some target
            ∧ (convert_instagram_post self post target).1 = Raise e)
       ∨ (∃ k post target text image,
            length records = S k
            ∧ posts !! k = Some post ∧ answers !! k = Some target
            ∧ (convert_instagram_post self post target).1
              = Ok (text, Some image)
            ∧ image_show image = Raise e)).
Proof.
  revert self answers history'.
  induction posts as [|post posts IH]; intros self answers history'; [done|].
  simpl. destruct answers as [|target answers].
  { intros [= <- <-]. exists []. rewrite app_nil_r.
    split; [done|]. split; [simpl; lia|].
    split; [intros i record; by rewrite lookup_nil|].
    left. by exists post. }
  destruct (convert_instagram_post self post target) as [[[text image]|e'] h1]
    eqn:Hcall.
  - pose proof Hcall as Hcall'.
    apply convert_instagram_post_inv in Hcall as [Hconv ->].
    cbn [snd]. destruct (show_processed image) as [[]|e''] eqn:Hshow.
    + destruct (convert_each _ posts answers) as [[rest|e3] h2] eqn:Hrest;
        [done|].
      intros [= <- <-].
      apply IH in Hrest as (records & -> & Hlen & Hrecords & Hcause).
      exists (record_of post target text :: records).
      split; [simpl; by rewrite <- app_assoc|]. split; [simpl; lia|]. split.
      * intros [|i] record; simpl.
        -- intros [= <-]. by exists post, target, text.
        -- apply Hrecords.
      * destruct Hcause
          as [(p & Hp & Ha & He)
             |[(p & t & Hp & Ha & Hr)
              |(k & p & t & tx & im & Hk & Hp & Ha & Hr & Hs)]].
        -- left. by exists p.
        -- rewrite convert_instagram_post_with_history in Hr.
           right; left. by exists p, t.
        -- rewrite convert_instagram_post_with_history in Hr.
           right; right. exists (S k), p, t, tx, im.
           cbn [length]. by rewrite Hk.
    + intros [= <- <-]. exists [record_of post target text].
      split; [done|]. split; [simpl; lia|]. split.
      * intros [|i] record; simpl; [|by rewrite lookup_nil].
        intros [= <-]. by exists post, target, text.
      * right; right. destruct image as [image|]; [|done].
        exists 0, post, target, text, image. by rewrite Hcall'.
  - pose proof Hcall as Hcall'.
    apply convert_instagram_post_inv in Hcall as ->.
    intros [= <- <-]. exists []. rewrite app_nil_r.
    split; [done|]. split; [simpl; lia|].
    split; [intros i record; by rewrite lookup_nil|].
    right; left. exists post, target. by rewrite Hcall'.
Qed.

(** X11: every record the loop adds names "Instagram" as its source: if all
    records on the history do before the loop, all do after it, however the
    loop ends. *)
Theorem loop_keeps_source_instagram (self : @t Store)
    (posts : list (gmap string string)) (answers : list string) :
  Forall (λ record, source_of record = "Instagram") (conversion_history self) →
  Forall (λ record, source_of record = "Instagram")
    (convert_each self posts answers).2.
Proof.
  revert self answers.
  induction posts as [|post posts IH]; intros self answers Hh; [done|].
  simpl. destruct answers as [|target answers]; [done|].
  destruct (convert_instagram_post self post target) as [[[text image]|e'] h1]
    eqn:Hcall.
  - apply convert_instagram_post_inv in Hcall as [_ ->].
    assert (Hh' : Forall (λ record, source_of record = "Instagram")
                    (conversion_history self ++ [record_of post target text])).
    { apply Forall_app; split; [done|by repeat constructor]. }
    destruct (show_processed _) as [[]|e'']; [|exact Hh'].
    specialize (IH (with_history self
                      (conversion_history self ++ [record_of post target text]))
                  answers).
    destruct (convert_each _ posts answers) as [[rest|e''] h2]; simpl in *;
      by apply IH.
  - by apply convert_instagram_post_inv in Hcall as ->.
Qed.

End LoopFacts.

(** X9: when the loop over the posts ends normally, there is one result per
    post and [conversion_history] is the history from before followed by
    one record per post, in post order; the record at position [i] holds the
    caption of post [i], "Instagram", the answer given for it, the text
    returned for it and its [media_url]. *)
Theorem loop_records_every_post
    {Image Store : Type} {pil : PIL Image} {web : Web Image}
    {chroma : Chroma Store} {llm : ChatModel} {repr : PyRepr}
    {viewer : Viewer Image}
    (self : @SocialMediaConverter.t Store) (posts : list (gmap string string))
    (answers : list string) (outs : list (string * option Image))
    (history' : list SocialMediaConverter.ConversionRecord) :
  SocialMediaConverter.convert_each self posts answers = (Ok outs, history') →
  length outs = length posts
  ∧ length history'
    = length (SocialMediaConverter.conversion_history self) + length posts
  ∧ take (length (SocialMediaConverter.conversion_history self)) history'
    = SocialMediaConverter.conversion_history self
  ∧ ∀ i post target out,
      posts !! i = Some post → answers !! i = Some target →
      outs !! i = Some out →
      history' !! (length (SocialMediaConverter.conversion_history self) + i)
      = Some (SocialMediaConverter.caption_of post, "Instagram", target,
              out.1, post !! "media_url").
Proof.
  intros Hloop.
  apply convert_each_Ok in Hloop as (Hlen & records & -> & Hrecords & Hlookup).
  split; [done|]. split; [by rewrite length_app, Hrecords|].
  split; [by rewrite take_app_length|].
  intros i post target out Hp Ha Ho.
  rewrite (lookup_app_r (SocialMediaConverter.conversion_history self) records)
    by lia.
  rewrite Nat.add_comm, Nat.add_sub.
  by apply (Hlookup i post target out).
Qed.

Lemma loop_records_every_post_witness :
  (@SocialMediaConverter.convert_each Demo.Img _ Demo.pil Demo.web Demo.chroma
     Demo.llm Demo.repr Demo.viewer Demo.converter
     [Demo.post_with_image; Demo.post_broken_image] ["Facebook"; "Thread"]).2
  !! 2
  = Some ("Check out my new product!", "Instagram", "Thread",
          "New post: hello #world", Some "https://cdn.example/gone.jpg").
Proof.
  destruct (@SocialMediaConverter.convert_each Demo.Img _ Demo.pil Demo.web
              Demo.chroma Demo.llm Demo.repr Demo.viewer Demo.converter
              [Demo.post_with_image; Demo.post_broken_image]
              ["Facebook"; "Thread"]) as [[outs|e] history'] eqn:Hloop;
    [|vm_compute in Hloop; discriminate].
  assert (Hout : outs !! 1 = Some ("New post: hello #world", None)).
  { vm_compute in Hloop. by injection Hloop as <- _. }
  apply (proj2 (proj2 (proj2 (loop_records_every_post _ _ _ _ _ Hloop)))
           1 Demo.post_broken_image "Thread" _ eq_refl eq_refl Hout).
Defined.

Lemma loop_failure_keeps_earlier_records_witness :
  @SocialMediaConverter.convert_each Demo.Img _ Demo.pil Demo.web Demo.chroma
    Demo.llm Demo.repr Demo.viewer_down Demo.converter
    [Demo.post_broken_image; Demo.post_with_image; Demo.post_with_image]
    ["Thread"; "Facebook"; "LinkedIn"]
  = (Raise (OtherError "OSError" "no display"),
     [Demo.earlier;
      ("Check out my new product!", "Instagram", "Thread",
       "New post: hello #world", Some "https://cdn.example/gone.jpg");
      ("Check out my new product!", "Instagram", "Facebook",
       "New post: hello #world", Some "https://cdn.example/a.jpg")])
  ∧ ∃ records,
      [Demo.earlier;
       ("Check out my new product!", "Instagram", "Thread",
        "New post: hello #world", Some "https://cdn.example/gone.jpg");
       ("Check out my new product!", "Instagram", "Facebook",
        "New post: hello #world", Some "https://cdn.example/a.jpg")]
      = [Demo.earlier] ++ records
      ∧ length records ≤ 3.
Proof.
  assert (Hloop :
    @SocialMediaConverter.convert_each Demo.Img _ Demo.pil Demo.web Demo.chroma
      Demo.llm Demo.repr Demo.viewer_down Demo.converter
      [Demo.post_broken_image; Demo.post_with_image; Demo.post_with_image]
      ["Thread"; "Facebook"; "LinkedIn"]
    = (Raise (OtherError "OSError" "no display"),
       [Demo.earlier;
        ("Check out my new product!", "Instagram", "Thread",
         "New post: hello #world", Some "https://cdn.example/gone.jpg");
        ("Check out my new product!", "Instagram", "Facebook",
         "New post: hello #world", Some "https://cdn.example/a.jpg")]))
    by (vm_compute; reflexivity).
  split; [exact Hloop|].
  destruct (loop_failure_keeps_earlier_records _ _ _ _ _ Hloop)
    as (records & Hhistory & Hlen & _).
  exists records. split; [exact Hhistory|exact Hlen].
Defined.

Lemma loop_keeps_source_instagram_witness :
  Forall (λ record, SocialMediaConverter.source_of record = "Instagram")
    (@SocialMediaConverter.convert_each Demo.Img _ Demo.pil Demo.web Demo.chroma
       Demo.llm Demo.repr Demo.viewer Demo.converter
       [Demo.post_with_image; Demo.post_broken_image] ["Facebook"; "Thread"]).2.
Proof.
  apply (@loop_keeps_source_instagram Demo.Img _ Demo.pil Demo.web Demo.chroma
           Demo.llm Demo.repr Demo.viewer Demo.converter).
  repeat constructor.
Defined.

Section RunFacts.
Context {Image Store : Type}.
Context `{PIL Image} `{Web Image} `{Chroma Store} `{ChatModel} `{PyRepr}.
Context `{Graph} `{Files} `{Sqlite}.
Context `{Viewer Image}.
Import SocialMediaConverter.

(** X12: a run of the script that raises leaves every database as it was,
    and every file too unless the failure was the database not opening, the
    one step that comes after the history file is written: when fetching, a
    conversion or opening the file fails, nothing of the session is saved. *)
Theorem failed_run_saves_nothing (self : @t Store) (username : string)
    (answers : list string) (files : gmap string string)
    (databases : gmap string (list Row)) (e : PyError) (world : World) :
  run self username answers files databases = (Raise e, world) →
  world_databases world = databases
  ∧ (world_files world = files
     ∨ (sqlite_connect "conversions.db" = Raise e
        ∧ world_files world
          = <["conversion_history.txt" :=
                foldl write_record "" (world_history world)]> files)).
Proof.
  unfold run.
  destruct (get_instagram_posts username 5) as [posts|e1];
    [|intros [= <- <-]; auto].
  destruct (convert_each self posts answers) as [[outs|e2] history];
    [|intros [= <- <-]; auto].
  unfold save_conversion_history, upload_to_database.
  destruct (open_for_writing "conversion_history.txt") as [[]|e3];
    [|intros [= <- <-]; auto].
  destruct (sqlite_connect "conversions.db") as [[]|e4]; [done|].
  intros [= <- <-]. simpl. auto.
Qed.

Lemma run_Ok (self : @t Store) username answers files databases world :
  run self username answers files databases = (Ok (), world) →
  world_files world
  = <["conversion_history.txt" := foldl write_record "" (world_history world)]>
      files
  ∧ world_databases world
    = <["conversions.db" :=
          foldl insert_record (default [] (databases !! "conversions.db"))
            (world_history world)]> databases
  ∧ ∃ posts outs,
      get_instagram_posts username 5 = Ok posts
      ∧ convert_each self posts answers = (Ok outs, world_history world).
Proof.
  unfold run.
  destruct (get_instagram_posts username 5) as [posts|e1]; [|done].
  destruct (convert_each self posts answers) as [[outs|e2] history] eqn:Hloop;
    [|done].
  unfold save_conversion_history, upload_to_database.
  destruct (open_for_writing "conversion_history.txt") as [[]|e3]; [|done].
  destruct (sqlite_connect "conversions.db") as [[]|e4]; [|done].
  intros [= <-]. simpl. split; [done|]. split; [done|]. by exists posts, outs.
Qed.

End RunFacts.

Lemma failed_run_saves_nothing_witness :
  (@SocialMediaConverter.run Demo.Img _ Demo.pil Demo.web Demo.chroma
     Demo.llm_down Demo.repr Demo.graph Demo.files Demo.sqlite Demo.viewer
     Demo.fresh_converter "snaps" ["Facebook"; "Thread"]
     {[ "conversion_history.txt" := "kept" ]} ∅).1
  = Raise (OtherError "APIConnectionError" "reset")
  ∧ SocialMediaConverter.world_databases
      (@SocialMediaConverter.run Demo.Img _ Demo.pil Demo.web Demo.chroma
         Demo.llm_down Demo.repr Demo.graph Demo.files Demo.sqlite Demo.viewer
         Demo.fresh_converter "snaps" ["Facebook"; "Thread"]
         {[ "conversion_history.txt" := "kept" ]} ∅).2
    = ∅.
Proof.
  destruct (@SocialMediaConverter.run Demo.Img _ Demo.pil Demo.web Demo.chroma
              Demo.llm_down Demo.repr Demo.graph Demo.files Demo.sqlite Demo.viewer
              Demo.fresh_converter "snaps" ["Facebook"; "Thread"]
              {[ "conversion_history.txt" := "kept" ]} ∅)
    as [r world] eqn:Hrun.
  assert (Hr : r = Raise (OtherError "APIConnectionError" "reset")).
  { destruct world as [history files databases].
    vm_compute in Hrun. by injection Hrun as <- _ _ _. }
  subst r. split; [reflexivity|].
  apply (proj1 (failed_run_saves_nothing _ _ _ _ _ _ _ Hrun)).
Defined.

(** X13: after a run of the script that ends normally, the file
    [conversion_history.txt] holds the text of the whole final history and
    nothing of what it held before, and the table in [conversions.db] has
    the rows it had followed by one row per record of the final history, in
    order. *)
Theorem finished_run_saves_whole_history
    {Image Store : Type} {pil : PIL Image} {web : Web Image}
    {chroma : Chroma Store} {llm : ChatModel} {repr : PyRepr}
    {graph : Graph} {fs : Files} {sqlite : Sqlite} {viewer : Viewer Image}
    (self : @SocialMediaConverter.t Store) (username : string)
    (answers : list string) (files : gmap string string)
    (databases : gmap string (list SocialMediaConverter.Row))
    (world : SocialMediaConverter.World) :
  SocialMediaConverter.run self username answers files databases
    = (Ok (), world) →
  SocialMediaConverter.world_files world !! "conversion_history.txt"
    = Some (foldl SocialMediaConverter.write_record ""
              (SocialMediaConverter.world_history world))
  ∧ (∀ other, other ≠ "conversion_history.txt" →
       SocialMediaConverter.world_files world !! other = files !! other)
  ∧ (∃ new,
       SocialMediaConverter.world_databases world !! "conversions.db"
       = Some (default [] (databases !! "conversions.db") ++ new)
       ∧ SocialMediaConverter.row_record <$> new
         = SocialMediaConverter.world_history world)
  ∧ take (length (SocialMediaConverter.conversion_history self))
      (SocialMediaConverter.world_history world)
    = SocialMediaConverter.conversion_history self.
Proof.
  intros Hrun.
  apply run_Ok in Hrun as (-> & -> & posts & outs & _ & Hloop).
  split; [apply lookup_insert_eq|].
  split; [intros other Hne; by rewrite lookup_insert_ne|]. split.
  - destruct (foldl_insert_record_app
                (default [] (databases !! "conversions.db"))
                (SocialMediaConverter.world_history world))
      as (new & Hrows & Hnew).
    exists new. split; [|done].
    by rewrite lookup_insert_eq, Hrows.
  - apply convert_each_Ok in Hloop as (_ & records & -> & _).
    by rewrite take_app_length.
Qed.

Lemma finished_run_saves_whole_history_witness :
  ∃ world,
    @SocialMediaConverter.run Demo.Img _ Demo.pil Demo.web Demo.chroma
      Demo.llm Demo.repr Demo.graph Demo.files Demo.sqlite Demo.viewer
      Demo.fresh_converter "snaps" ["Thread"; "Thread"]
      {[ "conversion_history.txt" := "stale" ]} ∅
    = (Ok (), world)
    ∧ length (SocialMediaConverter.world_history world) = 2
    ∧ SocialMediaConverter.world_files world !! "conversion_history.txt"
      = Some (foldl SocialMediaConverter.write_record ""
                (SocialMediaConverter.world_history world)).
Proof.
  destruct (@SocialMediaConverter.run Demo.Img _ Demo.pil Demo.web Demo.chroma
              Demo.llm Demo.repr Demo.graph Demo.files Demo.sqlite Demo.viewer
              Demo.fresh_converter "snaps" ["Thread"; "Thread"]
              {[ "conversion_history.txt" := "stale" ]} ∅)
    as [r world] eqn:Hrun.
  assert (Hr : r = Ok () ∧ length (SocialMediaConverter.world_history world) = 2).
  { destruct world as [history files databases].
    vm_compute in Hrun. injection Hrun as <- <- _ _. by split. }
  destruct Hr as [-> Hlen].
  exists world. split; [reflexivity|]. split; [exact Hlen|].
  apply (proj1 (finished_run_saves_whole_history _ _ _ _ _ _ Hrun)).
Defined.

(** X14: when no post can be fetched, the script still saves and uploads:
    run on a converter with nothing on record, it leaves
    [conversion_history.txt] empty, whatever it held, and the table in
    [conversions.db] as it was, created if it was not there. *)
Theorem run_without_posts_empties_history_file
    {Image Store : Type} {pil : PIL Image} {web : Web Image}
    {chroma : Chroma Store} {llm : ChatModel} {repr : PyRepr}
    {graph : Graph} {fs : Files} {sqlite : Sqlite} {viewer : Viewer Image}
    (self : @SocialMediaConverter.t Store) (username : string)
    (answers : list string) (files : gmap string string)
    (databases : gmap string (list SocialMediaConverter.Row)) :
  SocialMediaConverter.conversion_history self = [] →
  SocialMediaConverter.get_instagram_posts username 5 = Ok [] →
  open_for_writing "conversion_history.txt" = Ok () →
  sqlite_connect "conversions.db" = Ok () →
  SocialMediaConverter.run self username answers files databases
  = (Ok (),
     SocialMediaConverter.mkWorld []
       (<["conversion_history.txt" := ""]> files)
       (<["conversions.db" := default [] (databases !! "conversions.db")]>
          databases)).
Proof.
  intros Hh Hposts Hopen Hconnect. unfold SocialMediaConverter.run.
  rewrite Hposts. simpl. rewrite Hh.
  rewrite save_conversion_history_opened by done.
  by rewrite upload_to_database_connected.
Qed.

Lemma run_without_posts_empties_history_file_witness :
  @SocialMediaConverter.run Demo.Img _ Demo.pil Demo.web Demo.chroma
    Demo.llm Demo.repr Demo.graph Demo.files Demo.sqlite Demo.viewer
    Demo.fresh_converter "ghost" [] {[ "conversion_history.txt" := "kept" ]} ∅
  = (Ok (),
     SocialMediaConverter.mkWorld []
       (<["conversion_history.txt" := ""]>
          {[ "conversion_history.txt" := "kept" ]})
       (<["conversions.db" := []]> ∅)).
Proof.
  apply (@run_without_posts_empties_history_file Demo.Img _ Demo.pil Demo.web
           Demo.chroma Demo.llm Demo.repr Demo.graph Demo.files Demo.sqlite
           Demo.viewer Demo.fresh_converter "ghost" []).
  - reflexivity.
  - vm_compute. reflexivity.
  - reflexivity.
  - reflexivity.
Defined.

(** ** Construction *)

Section InitFacts.
Import SocialMediaConverter.

Lemma then_call_Ok {A B} event (a : A) (k : A → Traced B) :
  then_ (call event (Ok a)) k = (event :: (k a).1, (k a).2).
Proof. reflexivity. Qed.

Lemma then_call_Raise {A B} event e (k : A → Traced B) :
  then_ (call event (Raise e)) k = ([event], Raise e).
Proof. reflexivity. Qed.

Context {Store : Type} `{Chroma Store} `{Startup}.

(** Construction, stage by stage. *)
Lemma init_stages db_dir env_path :
  __init__ (Store := Store) db_dir env_path =
  match directory_load db_dir with
  | Raise e => ([LoadEnv env_path; LoadDocuments db_dir], Raise e)
  | Ok [] =>
      ([LoadEnv env_path; LoadDocuments db_dir],
       Raise (ValueError ("No documents found in " +:+ db_dir)))
  | Ok documents =>
      let splits := documents ≫= Chunker.split_document text_splitter in
      match from_documents splits with
      | Raise e =>
          ([LoadEnv env_path; LoadDocuments db_dir;
            SplitDocuments (length documents);
            CreateVectorstore (length splits)], Raise e)
      | Ok vs =>
          ([LoadEnv env_path; LoadDocuments db_dir;
            SplitDocuments (length documents);
            CreateVectorstore (length splits); CreateRAGChain;
            Getenv "INSTAGRAM_ACCESS_TOKEN"],
           match getenv env_path "INSTAGRAM_ACCESS_TOKEN" with
           | Some (String c tok) =>
               Ok (mkConverter documents splits vs (RAGChain.__init__ vs) []
                     (String c tok))
           | _ => Raise (ValueError "INSTAGRAM_ACCESS_TOKEN not found in .env file")
           end)
      end
  end.
Proof.
  unfold __init__, load_documents, create_vectorstore.
  rewrite then_call_Ok. cbv beta.
  destruct (directory_load db_dir) as [[|doc docs]|e].
  - by rewrite then_call_Ok.
  - rewrite then_call_Ok. cbv beta iota.
    rewrite split_documents_by_document, then_call_Ok. cbv beta.
    destruct (from_documents _) as [vs|e].
    + rewrite !then_call_Ok. cbv beta.
      by destruct (getenv env_path "INSTAGRAM_ACCESS_TOKEN") as [[|c tok]|].
    + by rewrite then_call_Raise.
  - by rewrite then_call_Raise.
Qed.

End InitFacts.

(** X15: a converter that construction returns has a non-empty corpus,
    splits that are the split of that corpus, a vector store built from
    those splits, a chain that retrieves from that very store with
    similarity search and k = 5, an empty history and a non-empty access
    token; and construction made its six outside calls in program order. *)
Theorem constructed_converter_is_consistent
    {Store : Type} {chroma : Chroma Store} {startup : Startup}
    (db_dir env_path : string) (trace : list SocialMediaConverter.Event)
    (self : @SocialMediaConverter.t Store) :
  SocialMediaConverter.__init__ db_dir env_path = (trace, Ok self) →
  directory_load db_dir = Ok (SocialMediaConverter.documents self)
  ∧ SocialMediaConverter.documents self ≠ []
  ∧ SocialMediaConverter.split_documents (SocialMediaConverter.documents self)
    = Ok (SocialMediaConverter.splits self)
  ∧ from_documents (SocialMediaConverter.splits self)
    = Ok (SocialMediaConverter.vectorstore self)
  ∧ RAGChain.retriever (SocialMediaConverter.rag_chain self)
    = RAGChain.mkRetriever (SocialMediaConverter.vectorstore self)
        "similarity" 5
  ∧ SocialMediaConverter.conversion_history self = []
  ∧ getenv env_path "INSTAGRAM_ACCESS_TOKEN"
    = Some (SocialMediaConverter.instagram_access_token self)
  ∧ SocialMediaConverter.instagram_access_token self ≠ ""
  ∧ trace
    = [SocialMediaConverter.LoadEnv env_path;
       SocialMediaConverter.LoadDocuments db_dir;
       SocialMediaConverter.SplitDocuments
         (length (SocialMediaConverter.documents self));
       SocialMediaConverter.CreateVectorstore
         (length (SocialMediaConverter.splits self));
       SocialMediaConverter.CreateRAGChain;
       SocialMediaConverter.Getenv "INSTAGRAM_ACCESS_TOKEN"].
Proof.
  rewrite init_stages.
  destruct (directory_load db_dir) as [[|doc docs]|e]; [done| |done].
  cbv zeta.
  destruct (from_documents _) as [vs|e] eqn:Hvs; [|done].
  destruct (getenv env_path "INSTAGRAM_ACCESS_TOKEN") as [[|c tok]|] eqn:Htok;
    [done| |done].
  intros [= <- <-]. cbn [SocialMediaConverter.documents
    SocialMediaConverter.splits SocialMediaConverter.vectorstore
    SocialMediaConverter.rag_chain SocialMediaConverter.conversion_history
    SocialMediaConverter.instagram_access_token].
  split; [done|]. split; [done|].
  split; [apply split_documents_by_document|].
  split; [exact Hvs|]. by repeat split.
Qed.

Lemma constructed_converter_is_consistent_witness :
  ∃ trace self,
    @SocialMediaConverter.__init__ _ Demo.chroma Demo.startup "guides" ".env"
    = (trace, Ok self)
    ∧ SocialMediaConverter.conversion_history self = []
    ∧ length trace = 6.
Proof.
  destruct (@SocialMediaConverter.__init__ _ Demo.chroma Demo.startup "guides"
              ".env") as [trace [self|e]] eqn:Hinit;
    [|vm_compute in Hinit; discriminate].
  exists trace, self. split; [reflexivity|].
  destruct (constructed_converter_is_consistent (chroma := Demo.chroma)
              (startup := Demo.startup) _ _ _ _ Hinit)
    as (_ & _ & _ & _ & _ & Hh & _ & _ & ->).
  split; [exact Hh|reflexivity].
Defined.

(** X16: the access token is checked last: with a corpus that loads,
    splits and indexes but no [INSTAGRAM_ACCESS_TOKEN] (unset or empty),
    construction raises its [ValueError] only after the vector store and the
    chain have been built. *)
Theorem missing_token_fails_after_indexing
    {Store : Type} {chroma : Chroma Store} {startup : Startup}
    (db_dir env_path : string) (doc : Document) (docs : list Document)
    (vs : Store) :
  directory_load db_dir = Ok (doc :: docs) →
  from_documents
    ((doc :: docs) ≫= Chunker.split_document SocialMediaConverter.text_splitter)
    = Ok vs →
  getenv env_path "INSTAGRAM_ACCESS_TOKEN" = None
  ∨ getenv env_path "INSTAGRAM_ACCESS_TOKEN" = Some "" →
  SocialMediaConverter.__init__ (Store := Store) db_dir env_path
  = ([SocialMediaConverter.LoadEnv env_path;
      SocialMediaConverter.LoadDocuments db_dir;
      SocialMediaConverter.SplitDocuments (length (doc :: docs));
      SocialMediaConverter.CreateVectorstore
        (length ((doc :: docs) ≫=
                   Chunker.split_document SocialMediaConverter.text_splitter));
      SocialMediaConverter.CreateRAGChain;
      SocialMediaConverter.Getenv "INSTAGRAM_ACCESS_TOKEN"],
     Raise (ValueError "INSTAGRAM_ACCESS_TOKEN not found in .env file")).
Proof.
  intros Hload Hvs Htok.
  rewrite init_stages, Hload. cbv zeta. rewrite Hvs.
  by destruct Htok as [-> | ->].
Qed.

Lemma missing_token_fails_after_indexing_witness :
  (@SocialMediaConverter.__init__ _ Demo.chroma Demo.startup_no_token "guides"
     ".env").2
  = Raise (ValueError "INSTAGRAM_ACCESS_TOKEN not found in .env file").
Proof.
  rewrite (@missing_token_fails_after_indexing _ Demo.chroma
             Demo.startup_no_token "guides" ".env"
             (Demo.guide "Use short sentences.")
             [Demo.guide "Keep hashtags under five per post."]
             (EmbeddingIndex.build (H := Demo.embedding)
                (Demo.corpus ≫=
                   Chunker.split_document SocialMediaConverter.text_splitter))).
  - reflexivity.
  - reflexivity.
  - reflexivity.
  - by left.
Defined.

(** ** The template and the chain *)

Section TemplateFacts.
Context `{PyRepr}.
Import Template.

Lemma fmap_result_compose {A B C} (f : A → B) (g : B → C) (r : result A) :
  g <$> (f <$> r) = (g ∘ f) <$> r.
Proof. by destruct r. Qed.

Lemma format_go_plain lit rest kwargs :
  plain lit = true →
  format_go (lit +:+ rest) None kwargs
  = String.app lit <$> format_go rest None kwargs.
Proof.
  induction lit as [|c lit IH]; simpl.
  - intros _. rewrite StrFacts.append_nil_l. by destruct (format_go _ _ _).
  - intros [[Ho Hc]%andb_prop Hlit]%andb_prop.
    apply negb_true_iff, bool_decide_eq_false in Ho, Hc.
    rewrite !decide_False by done. rewrite IH by done.
    by destruct (format_go rest None kwargs).
Qed.

Lemma format_go_name name rest kwargs acc :
  plain name = true →
  format_go (name +:+ String "}" rest) (Some acc) kwargs
  = match kwargs !! (acc +:+ name) with
    | Some v => String.app (py_str v) <$> format_go rest None kwargs
    | None => Raise (KeyError (acc +:+ name))
    end.
Proof.
  revert acc. induction name as [|c name IH]; intros acc; simpl.
  - intros _. by rewrite StrFacts.append_nil_r.
  - intros [[Ho Hc]%andb_prop Hname]%andb_prop.
    apply negb_true_iff, bool_decide_eq_false in Hc.
    rewrite decide_False by done. rewrite IH by done.
    by rewrite StrFacts.append_assoc.
Qed.

(** One literal stretch and one field of a template. *)
Lemma format_go_field lit name rest kwargs :
  plain lit = true → plain name = true →
  format_go (lit +:+ String "{" (name +:+ String "}" rest)) None kwargs
  = match kwargs !! name with
    | Some v =>
        String.app (lit +:+ py_str v) <$> format_go rest None kwargs
    | None => Raise (KeyError name)
    end.
Proof.
  intros Hlit Hname. rewrite format_go_plain by done. simpl.
  rewrite (format_go_name name rest kwargs "") by done.
  rewrite StrFacts.append_nil_l.
  destruct (kwargs !! name) as [v|]; [|done].
  destruct (format_go rest None kwargs) as [p|e]; [|done].
  simpl. by rewrite StrFacts.append_assoc.
Qed.

End TemplateFacts.

Section PromptFacts.
Context `{PyRepr}.
Import RAGChain.

(** [_create_prompt] by the five lookups it makes, in template order. *)
Lemma create_prompt_lookups kwargs :
  _create_prompt kwargs =
  match kwargs !! "input_post" with
  | None => Raise (KeyError "input_post")
  | Some input_post =>
  match kwargs !! "source_platform" with
  | None => Raise (KeyError "source_platform")
  | Some source_platform =>
  match kwargs !! "target_platform" with
  | None => Raise (KeyError "target_platform")
  | Some target_platform =>
  match kwargs !! "image_included" with
  | None => Raise (KeyError "image_included")
  | Some image_included =>
  match kwargs !! "context" with
  | None => Raise (KeyError "context")
  | Some context =>
      Ok (("You are an expert in social media content creation and platform-specific formatting. Use the following context and given parameters to convert the input post to the target platform format.

Input Post: " +:+ py_str input_post) +:+ ("
Source Platform: " +:+ py_str source_platform) +:+ ("
Target Platform: " +:+ py_str target_platform) +:+ ("
Image Included: " +:+ py_str image_included) +:+ ("

Context (Style guides and platform-specific information):
" +:+ py_str context) +:+ "

Convert the input post to the target platform format, ensuring it adheres to the platform's best practices and limitations. Maintain the core message and adapt any platform-specific features (e.g., hashtags, mentions, character limits). If an image is included, provide suggestions for image placement or formatting.

Converted Post:
" +:+ "")
  end end end end end.
Proof.
  unfold _create_prompt, Template.format.
  change template with
    ("You are an expert in social media content creation and platform-specific formatting. Use the following context and given parameters to convert the input post to the target platform format.

Input Post: " +:+ String "{" ("input_post" +:+ String "}" ("
Source Platform: " +:+ String "{" ("source_platform" +:+ String "}" ("
Target Platform: " +:+ String "{" ("target_platform" +:+ String "}" ("
Image Included: " +:+ String "{" ("image_included" +:+ String "}" ("

Context (Style guides and platform-specific information):
" +:+ String "{" ("context" +:+ String "}" ("

Convert the input post to the target platform format, ensuring it adheres to the platform's best practices and limitations. Maintain the core message and adapt any platform-specific features (e.g., hashtags, mentions, character limits). If an image is included, provide suggestions for image placement or formatting.

Converted Post:
" +:+ ""))))))))))).
  rewrite !format_go_field by reflexivity.
  rewrite format_go_plain by reflexivity.
  destruct (kwargs !! "input_post"); [|done].
  destruct (kwargs !! "source_platform"); [|done].
  destruct (kwargs !! "target_platform"); [|done].
  destruct (kwargs !! "image_included"); [|done].
  destruct (kwargs !! "context"); done.
Qed.

End PromptFacts.

(** X17: [convert_post] returns a text only for a stream that ended
    normally, and then all of it; a stream that raises makes [convert_post]
    raise the same error, whatever fragments came before: a partial answer
    is never returned. *)
Theorem convert_post_returns_whole_stream_or_raises
    {Store : Type} `{Chroma Store} `{ChatModel} `{PyRepr}
    (self : RAGChain.t) (input_post source_platform target_platform : string)
    (image_included : bool) :
  (∀ text,
     RAGChain.convert_post self input_post source_platform target_platform
       image_included = Ok text
     ↔ ∃ fragments,
         RAGChain._create_rag_chain self
           (RAGChain.chain_input input_post source_platform target_platform
              image_included) = (fragments, None)
         ∧ text = foldr String.app "" fragments)
  ∧ (∀ e,
       RAGChain.convert_post self input_post source_platform target_platform
         image_included = Raise e
       ↔ ∃ fragments,
           RAGChain._create_rag_chain self
             (RAGChain.chain_input input_post source_platform target_platform
                image_included) = (fragments, Some e)).
Proof.
  rewrite convert_post_stream.
  destruct (RAGChain._create_rag_chain self _) as [fragments [e'|]].
  - split.
    + intros text. split; [done|]. by intros (? & [= _ ?] & _).
    + intros e. rewrite join_stream_raises. split.
      * intros [= <-]. by exists fragments.
      * by intros (? & [= _ <-]).
  - split.
    + intros text. rewrite join_stream_done, StrFacts.join_empty_sep. split.
      * intros [= <-]. by exists fragments.
      * by intros (? & [= <-] & ->).
    + intros e. split; [done|]. by intros (? & [= _ ?]).
Qed.

(** X18: [_create_prompt] returns a prompt exactly when all five input
    variables are bound, and the prompt depends on the keyword arguments
    only through the text of those five values: it is the prompt composed
    from them, whatever else is bound. *)
Theorem create_prompt_needs_the_five_variables `{PyRepr}
    (kwargs : gmap string PyVal) :
  ((∃ prompt, RAGChain._create_prompt kwargs = Ok prompt)
   ↔ ∀ name, name ∈ RAGChain.input_variables → is_Some (kwargs !! name))
  ∧ (∀ context input_post source_platform target_platform image_included,
       kwargs !! "context" = Some context →
       kwargs !! "input_post" = Some input_post →
       kwargs !! "source_platform" = Some source_platform →
       kwargs !! "target_platform" = Some target_platform →
       kwargs !! "image_included" = Some image_included →
       RAGChain._create_prompt kwargs
       = RAGChain.compose_prompt (py_str context) (py_str input_post)
           (py_str source_platform) (py_str target_platform)
           (py_str image_included)).
Proof.
  split.
  - rewrite create_prompt_lookups. unfold RAGChain.input_variables. split.
    + intros [prompt Hp] name Hname.
      destruct (kwargs !! "input_post") eqn:H1; [|done].
      destruct (kwargs !! "source_platform") eqn:H2; [|done].
      destruct (kwargs !! "target_platform") eqn:H3; [|done].
      destruct (kwargs !! "image_included") eqn:H4; [|done].
      destruct (kwargs !! "context") eqn:H5; [|done].
      rewrite !elem_of_cons, elem_of_nil in Hname.
      destruct Hname as [->|[->|[->|[->|[->|[]]]]]]; by eexists.
    + intros Hall.
      destruct (Hall "input_post") as [? ->]; [set_solver|].
      destruct (Hall "source_platform") as [? ->]; [set_solver|].
      destruct (Hall "target_platform") as [? ->]; [set_solver|].
      destruct (Hall "image_included") as [? ->]; [set_solver|].
      destruct (Hall "context") as [? ->]; [set_solver|].
      by eexists.
  - intros context input_post source_platform target_platform image_included
      Hc Hi Hs Ht Hf.
    unfold RAGChain.compose_prompt. rewrite !create_prompt_lookups.
    rewrite Hc, Hi, Hs, Ht, Hf. vm_compute. reflexivity.
Qed.

Lemma create_prompt_needs_the_five_variables_witness :
  RAGChain._create_prompt (H1 := Demo.repr)
    {[ "context" := VStr "Use short sentences.";
       "input_post" := VStr "hello";
       "source_platform" := VStr "Instagram";
       "target_platform" := VStr "Thread";
       "image_included" := VStr "No";
       "language" := VStr "ko" ]}
  = RAGChain.compose_prompt (H1 := Demo.repr) "Use short sentences." "hello"
      "Instagram" "Thread" "No".
Proof.
  apply (proj2 (create_prompt_needs_the_five_variables (H := Demo.repr) _)
           (VStr "Use short sentences.") (VStr "hello") (VStr "Instagram")
           (VStr "Thread") (VStr "No"));
    vm_compute; reflexivity.
Defined.

(** X19: whenever retrieval returns, the chain does call the model:
    composing the prompt cannot fail there. The prompt has the joined
    documents as its context and, in each of the four request fields, the
    rendering of the whole request dict, since every [RunnablePassthrough()]
    hands on the chain's input as it is. *)
Theorem chain_prompt_repeats_the_request
    {Store : Type} `{Chroma Store} `{ChatModel} `{PyRepr}
    (self : RAGChain.t) (input : gmap string string) (docs : list Document) :
  RAGChain.invoke (RAGChain.retriever self) (VDict input) = Ok docs →
  ∃ prompt,
    RAGChain.compose_prompt (RAGChain._format_docs docs) (dict_str input)
      (dict_str input) (dict_str input) (dict_str input) = Ok prompt
    ∧ RAGChain._create_rag_chain self input = llm_stream prompt.
Proof.
  intros Hdocs.
  unfold RAGChain._create_rag_chain, RAGChain.parallel_step.
  rewrite Hdocs.
  pose proof (create_prompt_lookups
    ({[ "context" := VStr (RAGChain._format_docs docs);
        "input_post" := RAGChain.RunnablePassthrough (VDict input);
        "source_platform" := RAGChain.RunnablePassthrough (VDict input);
        "target_platform" := RAGChain.RunnablePassthrough (VDict input);
        "image_included" := RAGChain.RunnablePassthrough (VDict input) ]}
     : gmap string PyVal)) as Hchain.
  pose proof (create_prompt_lookups
    ({[ "context" := VStr (RAGChain._format_docs docs);
        "input_post" := VStr (dict_str input);
        "source_platform" := VStr (dict_str input);
        "target_platform" := VStr (dict_str input);
        "image_included" := VStr (dict_str input) ]}
     : gmap string PyVal)) as Hcompose.
  eexists. split.
  - unfold RAGChain.compose_prompt. rewrite Hcompose. vm_compute. reflexivity.
  - unfold mbind, mret, result_bind, result_ret.
    rewrite Hchain. vm_compute. reflexivity.
Qed.

Lemma chain_prompt_repeats_the_request_witness :
  ∃ prompt,
    RAGChain.compose_prompt (H1 := Demo.repr)
      (RAGChain._format_docs Demo.corpus) "hello" "hello" "hello" "hello"
    = Ok prompt
    ∧ RAGChain._create_rag_chain (H := Demo.chroma) (H0 := Demo.llm)
        (H1 := Demo.repr) (RAGChain.__init__ Demo.store)
        (RAGChain.chain_input "hello" "Instagram" "Thread" false)
      = llm_stream (ChatModel := Demo.llm) prompt.
Proof.
  apply (chain_prompt_repeats_the_request (H := Demo.chroma) (H0 := Demo.llm)
           (H1 := Demo.repr) (RAGChain.__init__ Demo.store)
           (RAGChain.chain_input "hello" "Instagram" "Thread" false)
           Demo.corpus).
  vm_compute. reflexivity.
Defined.





(** ** Images *)

(** X20: for "Facebook" and "LinkedIn", an image that is PNG after resizing,
    in whatever letter case its format is spelt, comes back as the resized
    image itself, not repainted; an image without a format raises
    [AttributeError] there, while every other target returns it untouched. *)
Theorem process_image_png_and_formatless
    {Image : Type} {pil : PIL Image} (image resized : Image)
    (target : string) (bound : nat * nat) :
  (target = "Facebook" ∧ bound = (2048, 2048))
  ∨ (target = "LinkedIn" ∧ bound = (1200, 627)) →
  thumbnail image bound = Ok resized →
  (∀ format, image_format resized = Some format →
     Str.lower format = "png" →
     SocialMediaConverter.process_image image target = Ok resized)
  ∧ (image_format resized = None →
     ∃ msg, SocialMediaConverter.process_image image target
            = Raise (AttributeError msg)).
Proof.
  intros Htarget Hthumb.
  assert (Hstep : SocialMediaConverter.process_image image target
                  = ImageProcessor.convert_to_format resized "PNG").
  { unfold SocialMediaConverter.process_image, ImageProcessor.resize_image.
    destruct Htarget as [[-> ->]|[-> ->]].
    - rewrite decide_True by done. by rewrite Hthumb.
    - rewrite decide_False, decide_True by done. by rewrite Hthumb. }
  rewrite Hstep. unfold ImageProcessor.convert_to_format. split.
  - intros format -> Hpng. rewrite decide_False; [done|].
    rewrite Hpng. by intros Hne.
  - intros ->. by eexists.
Qed.

Lemma process_image_png_and_formatless_witness :
  @SocialMediaConverter.process_image _ Demo.pil Demo.png_photo "LinkedIn"
  = Ok (Demo.mkImg (Some "PNG") 836 627).
Proof.
  apply (proj1 (@process_image_png_and_formatless _ Demo.pil Demo.png_photo
                  (Demo.mkImg (Some "PNG") 836 627) "LinkedIn" (1200, 627)
                  (or_intror (conj eq_refl eq_refl)) eq_refl) "PNG");
    reflexivity.
Defined.

(** X21: for a target other than "Facebook" and "LinkedIn", a post whose
    image downloads is converted whenever the chain returns, and the image
    that comes back is the downloaded one, unchanged. *)
Theorem other_targets_return_the_download
    {Image Store : Type} {pil : PIL Image} {web : Web Image}
    {chroma : Chroma Store} {llm : ChatModel} {repr : PyRepr}
    (self : @SocialMediaConverter.t Store) (post : gmap string string)
    (target url text : string) (image : Image) :
  target ≠ "Facebook" → target ≠ "LinkedIn" →
  post !! "media_url" = Some url → url ≠ "" →
  fetch_image url = Ok image →
  RAGChain.convert_post (SocialMediaConverter.rag_chain self)
    (SocialMediaConverter.caption_of post) "Instagram" target true = Ok text →
  SocialMediaConverter.convert_instagram_post self post target
  = (Ok (text, Some image),
     SocialMediaConverter.conversion_history self ++
       [(SocialMediaConverter.caption_of post, "Instagram", target, text,
         Some url)]).
Proof.
  intros HF HL Hurl Hne Hfetch Hconv.
  assert (Hi : SocialMediaConverter.original_image_of post = Some image).
  { apply original_image_Some. exists url. split; [done|]. split; [done|].
    unfold InstagramAPI.download_image. by rewrite Hfetch. }
  unfold SocialMediaConverter.convert_instagram_post.
  rewrite Hi. cbn [SocialMediaConverter.bool_of]. rewrite Hconv.
  rewrite process_image_other by done. by rewrite Hurl.
Qed.

Lemma other_targets_return_the_download_witness :
  @SocialMediaConverter.convert_instagram_post Demo.Img _ Demo.pil Demo.web
    Demo.chroma Demo.llm Demo.repr Demo.fresh_converter Demo.post_with_image
    "Thread"
  = (Ok ("New post: hello #world", Some Demo.photo),
     [] ++ [("Check out my new product!", "Instagram", "Thread",
             "New post: hello #world", Some "https://cdn.example/a.jpg")]).
Proof.
  apply (@other_targets_return_the_download Demo.Img _ Demo.pil Demo.web
           Demo.chroma Demo.llm Demo.repr Demo.fresh_converter
           Demo.post_with_image "Thread" "https://cdn.example/a.jpg").
  - discriminate.
  - discriminate.
  - vm_compute. reflexivity.
  - discriminate.
  - vm_compute. reflexivity.
  - vm_compute. reflexivity.
Defined.

(** X22: for "Facebook" and "LinkedIn", when the chain has returned a
    text but the downloaded image cannot be resized,
    [convert_instagram_post] raises the resizing error: the text is not
    returned and no record of the conversion is kept. *)
Theorem resize_failure_discards_the_text
    {Image Store : Type} {pil : PIL Image} {web : Web Image}
    {chroma : Chroma Store} {llm : ChatModel} {repr : PyRepr}
    (self : @SocialMediaConverter.t Store) (post : gmap string string)
    (target url text : string) (bound : nat * nat) (image : Image)
    (e : PyError) :
  (target = "Facebook" ∧ bound = (2048, 2048))
  ∨ (target = "LinkedIn" ∧ bound = (1200, 627)) →
  post !! "media_url" = Some url → url ≠ "" →
  fetch_image url = Ok image →
  RAGChain.convert_post (SocialMediaConverter.rag_chain self)
    (SocialMediaConverter.caption_of post) "Instagram" target true = Ok text →
  thumbnail image bound = Raise e →
  SocialMediaConverter.convert_instagram_post self post target
  = (Raise e, SocialMediaConverter.conversion_history self).
Proof.
  intros Htarget Hurl Hne Hfetch Hconv Hthumb.
  assert (Hi : SocialMediaConverter.original_image_of post = Some image).
  { apply original_image_Some. exists url. split; [done|]. split; [done|].
    unfold InstagramAPI.download_image. by rewrite Hfetch. }
  assert (Himg : SocialMediaConverter.process_image image target = Raise e).
  { unfold SocialMediaConverter.process_image, ImageProcessor.resize_image.
    destruct Htarget as [[-> ->]|[-> ->]].
    - rewrite decide_True by done. by rewrite Hthumb.
    - rewrite decide_False, decide_True by done. by rewrite Hthumb. }
  unfold SocialMediaConverter.convert_instagram_post.
  rewrite Hi. cbn [SocialMediaConverter.bool_of]. rewrite Hconv.
  by rewrite Himg.
Qed.

Lemma resize_failure_discards_the_text_witness :
  @SocialMediaConverter.convert_instagram_post Demo.Img _ Demo.pil_truncated
    Demo.web Demo.chroma Demo.llm Demo.repr Demo.converter
    Demo.post_with_image "Facebook"
  = (Raise (OtherError "OSError" "image file is truncated"), [Demo.earlier]).
Proof.
  apply (@resize_failure_discards_the_text Demo.Img _ Demo.pil_truncated
           Demo.web Demo.chroma Demo.llm Demo.repr Demo.converter
           Demo.post_with_image "Facebook" "https://cdn.example/a.jpg"
           "New post: hello #world" (2048, 2048) Demo.photo).
  - left. by split.
  - vm_compute. reflexivity.
  - discriminate.
  - vm_compute. reflexivity.
  - vm_compute. reflexivity.
  - reflexivity.
Defined.

(** ** SnapsAI_test1.py *)

Section FormatFacts.
Import SnapsAI_test1.

Lemma prefix_nil s : String.prefix "" s = true.
Proof. by destruct s. Qed.

Lemma has_scheme_https url : has_scheme ("https://" +:+ url).
Proof.
  unfold has_scheme. apply orb_true_iff. right.
  change ("https://" +:+ url)
    with (String "h" (String "t" (String "t" (String "p" (String "s"
            (String ":" (String "/" (String "/" url)))))))).
  simpl. apply prefix_nil.
Qed.

Lemma ensure_https_has_scheme url : url ≠ "" → has_scheme (ensure_https url).
Proof.
  intros Hne. destruct url as [|c url]; [done|].
  unfold ensure_https.
  destruct (String.prefix "http://" (String c url)
            || String.prefix "https://" (String c url)) eqn:Hp; [done|].
  apply has_scheme_https.
Qed.

Lemma ensure_https_fixed url : has_scheme url → ensure_https url = url.
Proof.
  unfold has_scheme, ensure_https. intros ->. by destruct url.
Qed.

Lemma urls_of_have_scheme d : Forall has_scheme (urls_of d).
Proof.
  unfold urls_of.
  destruct (or_else _ _) as [[|c url]|]; repeat constructor.
  by apply ensure_https_has_scheme.
Qed.

Lemma length_urls_of d : length (urls_of d) ≤ 1.
Proof.
  unfold urls_of. destruct (or_else _ _) as [[|c url]|]; simpl; lia.
Qed.

Lemma media_urls_of_have_scheme item urls :
  media_urls_of item = Ok urls → Forall has_scheme urls.
Proof.
  unfold media_urls_of.
  destruct (item_children item) as [[data|]|];
    try destruct (decide _); try done; intros [= <-];
    try apply urls_of_have_scheme.
  apply Forall_bind, Forall_forall. intros d _. apply urls_of_have_scheme.
Qed.

Lemma format_post_Ok item post :
  format_post item = Ok post →
  media_urls_of item = Ok (post_media_urls post)
  ∧ post_id post = item_fields item !! "id"
  ∧ post_caption post = default "No caption" (item_fields item !! "caption").
Proof.
  unfold format_post. destruct (media_urls_of item) as [urls|e]; [|done].
  by intros [= <-].
Qed.

Lemma format_post_Raise item e :
  format_post item = Raise e ↔
  item_fields item !! "media_type" = Some "CAROUSEL_ALBUM"
  ∧ item_children item = Some None ∧ e = KeyError "data".
Proof.
  unfold format_post, media_urls_of.
  destruct (item_children item) as [[data|]|]; try destruct (decide _);
    simpl; split; try done; try (by intros (? & ? & ?)).
  - by intros [= <-].
  - by intros (_ & _ & ->).
Qed.

Lemma format_posts_Ok items posts :
  format_posts items = Ok posts →
  Forall2 (λ item post, format_post item = Ok post) items posts.
Proof.
  revert posts. induction items as [|item items IH]; intros posts; simpl.
  - intros [= <-]. constructor.
  - destruct (format_post item) as [post|e] eqn:Hpost; [|done]. simpl.
    destruct (format_posts items) as [rest|e]; [|done]. simpl.
    intros [= <-]. constructor; auto.
Qed.

Lemma format_posts_Raise items e :
  format_posts items = Raise e →
  ∃ item, item ∈ items ∧ format_post item = Raise e.
Proof.
  induction items as [|item items IH]; simpl; [done|].
  destruct (format_post item) as [post|e'] eqn:Hpost; simpl.
  - destruct (format_posts items) as [rest|e'']; [done|]. simpl.
    intros [= <-]. destruct IH as (item' & Hin & Hr); [done|].
    exists item'. split; [by right|done].
  - intros [= <-]. exists item. split; [by left|done].
Qed.

Lemma format_posts_all_Ok items :
  (∀ item, item ∈ items → ∃ post, format_post item = Ok post) →
  ∃ posts, format_posts items = Ok posts.
Proof.
  induction items as [|item items IH]; intros Hall; simpl; [by eexists|].
  destruct (Hall item) as [post ->]; [by left|].
  destruct IH as [posts ->]; [intros ? ?; apply Hall; by right|].
  by eexists.
Qed.

End FormatFacts.

(** X23: [ensure_https] leaves the empty URL and every URL that starts with
    [http://] or [https://] as it is, puts [https://] in front of any other,
    so that its result always names a scheme unless it is empty, and
    applying it twice is the same as applying it once. *)
Theorem ensure_https_idempotent (url : string) :
  SnapsAI_test1.ensure_https (SnapsAI_test1.ensure_https url)
    = SnapsAI_test1.ensure_https url
  ∧ (url ≠ "" → SnapsAI_test1.has_scheme (SnapsAI_test1.ensure_https url))
  ∧ (SnapsAI_test1.has_scheme url → SnapsAI_test1.ensure_https url = url)
  ∧ (url ≠ "" → ¬ SnapsAI_test1.has_scheme url →
     SnapsAI_test1.ensure_https url = "https://" +:+ url)
  ∧ SnapsAI_test1.ensure_https "" = "".
Proof.
  split; [|split; [|split; [|split]]].
  - destruct url as [|c url]; [done|].
    by apply ensure_https_fixed, ensure_https_has_scheme.
  - apply ensure_https_has_scheme.
  - apply ensure_https_fixed.
  - intros Hne Hno. destruct url as [|c url]; [done|].
    unfold SnapsAI_test1.ensure_https, SnapsAI_test1.has_scheme in *.
    by destruct (String.prefix "http://" (String c url)
                 || String.prefix "https://" (String c url)).
  - reflexivity.
Qed.

Lemma ensure_https_idempotent_witness :
  SnapsAI_test1.ensure_https "cdn.example/a.jpg" = "https://cdn.example/a.jpg"
  ∧ SnapsAI_test1.ensure_https "http://cdn.example/a.jpg"
    = "http://cdn.example/a.jpg".
Proof.
  split.
  - apply (proj1 (proj2 (proj2 (proj2
             (ensure_https_idempotent "cdn.example/a.jpg"))))); [done|].
    unfold SnapsAI_test1.has_scheme. vm_compute. discriminate.
  - apply (proj1 (proj2 (proj2
             (ensure_https_idempotent "http://cdn.example/a.jpg")))).
    reflexivity.
Defined.

(** X24: every media URL in the posts that [format_posts] returns starts
    with [http://] or [https://], and a post that is not a carousel with
    children has at most one. *)
Theorem formatted_media_urls_have_scheme
    (media_items : list SnapsAI_test1.MediaItem)
    (posts : list SnapsAI_test1.FormattedPost) :
  SnapsAI_test1.format_posts media_items = Ok posts →
  Forall (λ post,
            Forall SnapsAI_test1.has_scheme (SnapsAI_test1.post_media_urls post))
    posts
  ∧ ∀ i item post,
      media_items !! i = Some item → posts !! i = Some post →
      SnapsAI_test1.item_children item = None
      ∨ SnapsAI_test1.item_fields item !! "media_type" ≠ Some "CAROUSEL_ALBUM" →
      length (SnapsAI_test1.post_media_urls post) ≤ 1.
Proof.
  intros Hposts. apply format_posts_Ok in Hposts. split.
  - induction Hposts as [|item post items posts Hpost _ IH]; constructor; auto.
    apply format_post_Ok in Hpost as (Hurls & _).
    by apply media_urls_of_have_scheme in Hurls.
  - intros i item post Hi Hp Hsingle.
    pose proof (Forall2_lookup_lr _ _ _ _ _ _ Hposts Hi Hp) as Hpost.
    apply format_post_Ok in Hpost as (Hurls & _).
    unfold SnapsAI_test1.media_urls_of in Hurls.
    destruct (SnapsAI_test1.item_children item) as [children|].
    + destruct Hsingle as [|Hne]; [done|].
      rewrite decide_False in Hurls by done.
      injection Hurls as <-. apply length_urls_of.
    + injection Hurls as <-. apply length_urls_of.
Qed.

(** X25: [format_posts] raises only [KeyError('data')], and exactly when
    some item is a [CAROUSEL_ALBUM] whose [children] has no [data];
    otherwise it returns one post per item, in order, each with the item's
    [id] and its caption, or "No caption" when the item has none. *)
Theorem format_posts_outcome (media_items : list SnapsAI_test1.MediaItem) :
  (∀ e,
     SnapsAI_test1.format_posts media_items = Raise e →
     e = KeyError "data"
     ∧ ∃ item, item ∈ media_items
         ∧ SnapsAI_test1.item_fields item !! "media_type"
           = Some "CAROUSEL_ALBUM"
         ∧ SnapsAI_test1.item_children item = Some None)
  ∧ ((∀ item, item ∈ media_items →
        SnapsAI_test1.item_fields item !! "media_type" = Some "CAROUSEL_ALBUM" →
        SnapsAI_test1.item_children item ≠ Some None) →
     ∃ posts,
       SnapsAI_test1.format_posts media_items = Ok posts
       ∧ length posts = length media_items
       ∧ ∀ i item post,
           media_items !! i = Some item → posts !! i = Some post →
           SnapsAI_test1.post_id post
             = SnapsAI_test1.item_fields item !! "id"
           ∧ SnapsAI_test1.post_caption post
             = default "No caption"
                 (SnapsAI_test1.item_fields item !! "caption")).
Proof.
  split.
  - intros e He. apply format_posts_Raise in He as (item & Hin & Hr).
    apply format_post_Raise in Hr as (Hty & Hch & ->).
    split; [done|]. by exists item.
  - intros Hdata.
    destruct (format_posts_all_Ok media_items) as [posts Hposts].
    { intros item Hin.
      destruct (SnapsAI_test1.format_post item) as [post|e] eqn:Hpost;
        [by eexists|].
      apply format_post_Raise in Hpost as (Hty & Hch & _).
      by destruct (Hdata item Hin Hty). }
    exists posts. split; [done|].
    apply format_posts_Ok in Hposts.
    split; [symmetry; by eapply Forall2_length|].
    intros i item post Hi Hp.
    pose proof (Forall2_lookup_lr _ _ _ _ _ _ Hposts Hi Hp) as Hpost.
    by apply format_post_Ok in Hpost as (_ & ? & ?).
Qed.

Lemma formatted_media_urls_have_scheme_witness :
  ∃ posts,
    SnapsAI_test1.format_posts [Demo.carousel; Demo.single_image] = Ok posts
    ∧ SnapsAI_test1.post_media_urls <$> posts
      = [["https://cdn.example/1.jpg"; "https://cdn.example/2.jpg"];
         ["http://cdn.example/3.jpg"]]
    ∧ Forall (λ post,
                Forall SnapsAI_test1.has_scheme
                  (SnapsAI_test1.post_media_urls post)) posts.
Proof.
  eexists. split; [vm_compute; reflexivity|].
  split; [vm_compute; reflexivity|].
  apply (proj1 (formatted_media_urls_have_scheme
                  [Demo.carousel; Demo.single_image] _
                  ltac:(vm_compute; reflexivity))).
Defined.

Lemma format_posts_outcome_witness :
  SnapsAI_test1.format_posts [Demo.carousel; Demo.broken_carousel]
  = Raise (KeyError "data")
  ∧ ∃ posts,
      SnapsAI_test1.format_posts [Demo.carousel; Demo.single_image] = Ok posts
      ∧ length posts = 2.
Proof.
  split.
  - destruct (SnapsAI_test1.format_posts [Demo.carousel; Demo.broken_carousel])
      as [posts|e] eqn:Hposts; [vm_compute in Hposts; discriminate|].
    f_equal.
    apply (proj1 (format_posts_outcome [Demo.carousel; Demo.broken_carousel])
             e Hposts).
  - destruct (proj2 (format_posts_outcome [Demo.carousel; Demo.single_image]))
      as (posts & Hposts & Hlen & _).
    + intros item Hin Hty Hch.
      rewrite !elem_of_cons, elem_of_nil in Hin.
      destruct Hin as [->|[->|[]]]; vm_compute in Hch; discriminate.
    + exists posts. split; [exact Hposts|exact Hlen].
Defined.

(** ** The rule-based conversion *)

Section ConvertPostFacts.
Import SnapsAI_test1.

Lemma length_text s : length (text s) = String.length s.
Proof. unfold text. by rewrite length_fmap, length_to_list. Qed.

Lemma length_image_note : length image_note = 24.
Proof. reflexivity. Qed.

End ConvertPostFacts.

(** X26: the length, in code points, of what [convert_post] returns, by
    target: the caption's length plus 142 for "LinkedIn" and plus 103 for
    "Facebook"; at most 100 of the caption plus 59 for "Thread" and at most
    150 plus 103 for "YouTube Community"; for "Twitter" the caption's
    length plus 20 up to 200 code points and 262 beyond; the caption's own
    length for any other target; and 24 more with an image. *)
Theorem convert_post_length (caption : SnapsAI_test1.Text)
    (target_platform : string) (has_image : bool) :
  length (SnapsAI_test1.convert_post caption target_platform has_image)
  = (if decide (target_platform = "Twitter") then
       if decide (200 < length caption) then 262 else length caption + 20
     else if decide (target_platform = "LinkedIn") then length caption + 142
     else if decide (target_platform = "Facebook") then length caption + 103
     else if decide (target_platform = "Thread") then
       length caption `min` 100 + 59
     else if decide (target_platform = "YouTube Community") then
       length caption `min` 150 + 103
     else length caption)
    + (if has_image then 24 else 0).
Proof.
  unfold SnapsAI_test1.convert_post.
  assert (Hnote : ∀ t : SnapsAI_test1.Text,
    length (if has_image then t ++ SnapsAI_test1.image_note else t)
    = length t + (if has_image then 24 else 0)).
  { intros t. destruct has_image; [|lia].
    by rewrite length_app, length_image_note. }
  rewrite Hnote. f_equal.
  repeat case_decide; rewrite ?length_app, ?length_take, ?length_text;
    cbv [String.length String.append Str.nl Str.LF]; cbn [length]; lia.
Qed.

(** X27: unless the target cuts the caption ("Twitter" beyond 200 code
    points, "Thread" beyond 100, "YouTube Community" beyond 150), the
    caption is in the result whole; where it is cut, the result holds no
    more than its first 200, 100 or 150 code points, then three dots. *)
Theorem convert_post_keeps_or_cuts_caption (caption : SnapsAI_test1.Text)
    (target_platform : string) (has_image : bool) :
  ((target_platform = "Twitter" → length caption ≤ 200) →
   (target_platform = "Thread" → length caption ≤ 100) →
   (target_platform = "YouTube Community" → length caption ≤ 150) →
   ∃ before after,
     SnapsAI_test1.convert_post caption target_platform has_image
     = before ++ caption ++ after)
  ∧ ∀ limit,
      (target_platform = "Twitter" ∧ limit = 200)
      ∨ (target_platform = "Thread" ∧ limit = 100)
      ∨ (target_platform = "YouTube Community" ∧ limit = 150) →
      limit < length caption →
      ∃ before after,
        SnapsAI_test1.convert_post caption target_platform has_image
        = before ++ take limit caption ++ SnapsAI_test1.text "..." ++ after
        ∧ length before + length after ≤ 124.
Proof.
  split.
  - intros Htw Hth Hyt. unfold SnapsAI_test1.convert_post.
    set (note := if has_image then SnapsAI_test1.image_note else []).
    destruct (decide (target_platform = "Twitter")) as [->|HnTw].
    { rewrite decide_False by (specialize (Htw eq_refl); lia).
      exists [], (SnapsAI_test1.text (Str.nl +:+ Str.nl +:+ "#Instagram #Social")
                  ++ note).
      subst note. destruct has_image;
        rewrite <- ?app_assoc, ?app_nil_r; reflexivity. }
    destruct (decide (target_platform = "LinkedIn")) as [->|HnLi].
    { exists (SnapsAI_test1.text
                ("I just shared a new post on Instagram! Here's a sneak peek:"
                 +:+ Str.nl +:+ Str.nl)),
        (SnapsAI_test1.text
           (Str.nl +:+ Str.nl +:+ "Follow me on Instagram for more updates!")
         ++ SnapsAI_test1.text
              (Str.nl +:+ Str.nl +:+ "#SocialMedia #Professional #Instagram")
         ++ note).
      subst note. destruct has_image;
        rewrite <- ?app_assoc, ?app_nil_r; reflexivity. }
    destruct (decide (target_platform = "Facebook")) as [->|HnFb].
    { exists (SnapsAI_test1.text "New Instagram Post Alert! "
              ++ [SnapsAI_test1.rotating_light]
              ++ SnapsAI_test1.text (Str.nl +:+ Str.nl)),
        (SnapsAI_test1.text
           (Str.nl +:+ Str.nl +:+
            "Head over to my Instagram profile to see the full post and more content!")
         ++ note).
      subst note. destruct has_image;
        rewrite <- ?app_assoc, ?app_nil_r; reflexivity. }
    destruct (decide (target_platform = "Thread")) as [->|HnTh].
    { rewrite take_ge by auto.
      exists (SnapsAI_test1.text
                ("Continuing from my recent Instagram post..."
                 +:+ Str.nl +:+ Str.nl)),
        (SnapsAI_test1.text ("..." +:+ Str.nl +:+ Str.nl +:+ "Thoughts?")
         ++ note).
      subst note. destruct has_image;
        rewrite <- ?app_assoc, ?app_nil_r; reflexivity. }
    destruct (decide (target_platform = "YouTube Community")) as [->|HnYt].
    { rewrite take_ge by auto.
      exists ([SnapsAI_test1.camera_flash]
              ++ SnapsAI_test1.text " Instagram Update "
              ++ [SnapsAI_test1.camera_flash]
              ++ SnapsAI_test1.text (Str.nl +:+ Str.nl)),
        (SnapsAI_test1.text
           ("..." +:+ Str.nl +:+ Str.nl +:+
            "Check out my Instagram for the full post and more behind-the-scenes content!")
         ++ note).
      subst note. destruct has_image;
        rewrite <- ?app_assoc, ?app_nil_r; reflexivity. }
    exists [], note. subst note. by destruct has_image; rewrite ?app_nil_r.
  - intros limit Hlimit Hlong. unfold SnapsAI_test1.convert_post.
    destruct Hlimit as [[-> ->]|[[-> ->]|[-> ->]]].
    + rewrite decide_True by done. rewrite decide_True by done.
      eexists (SnapsAI_test1.text "Check out my latest Instagram post! "
               ++ [SnapsAI_test1.camera_flash]
               ++ SnapsAI_test1.text (Str.nl +:+ Str.nl)),
        (SnapsAI_test1.text (Str.nl +:+ Str.nl +:+ "#Instagram #Social")
         ++ if has_image then SnapsAI_test1.image_note else []).
      split.
      * destruct has_image; rewrite <- ?app_assoc, ?app_nil_r; reflexivity.
      * destruct has_image; rewrite ?length_app, ?length_text,
          ?length_image_note;
          cbv [String.length String.append Str.nl Str.LF]; cbn [length]; lia.
    + rewrite decide_False, decide_False, decide_False, decide_True by done.
      eexists (SnapsAI_test1.text ("Continuing from my recent Instagram post..."
                                   +:+ Str.nl +:+ Str.nl)),
        (SnapsAI_test1.text (Str.nl +:+ Str.nl +:+ "Thoughts?")
         ++ if has_image then SnapsAI_test1.image_note else []).
      split.
      * destruct has_image; rewrite <- ?app_assoc, ?app_nil_r; reflexivity.
      * destruct has_image; rewrite ?length_app, ?length_text,
          ?length_image_note;
          cbv [String.length String.append Str.nl Str.LF]; cbn [length]; lia.
    + rewrite decide_False, decide_False, decide_False, decide_False,
        decide_True by done.
      eexists ([SnapsAI_test1.camera_flash]
               ++ SnapsAI_test1.text " Instagram Update "
               ++ [SnapsAI_test1.camera_flash]
               ++ SnapsAI_test1.text (Str.nl +:+ Str.nl)),
        (SnapsAI_test1.text
           (Str.nl +:+ Str.nl +:+
            "Check out my Instagram for the full post and more behind-the-scenes content!")
         ++ if has_image then SnapsAI_test1.image_note else []).
      split.
      * destruct has_image; rewrite <- ?app_assoc, ?app_nil_r; reflexivity.
      * destruct has_image; rewrite ?length_app, ?length_text,
          ?length_image_note;
          cbv [String.length String.append Str.nl Str.LF]; cbn [length]; lia.
Qed.

Lemma convert_post_keeps_or_cuts_caption_witness :
  (∃ before after,
     SnapsAI_test1.convert_post (SnapsAI_test1.text "hello") "Naver blog" true
     = before ++ SnapsAI_test1.text "hello" ++ after)
  ∧ ∃ before after,
      SnapsAI_test1.convert_post (replicate 101 97%N) "Thread" false
      = before ++ take 100 (replicate 101 97%N) ++ SnapsAI_test1.text "..."
        ++ after
      ∧ length before + length after ≤ 124.
Proof.
  split.
  - apply (proj1 (convert_post_keeps_or_cuts_caption
                    (SnapsAI_test1.text "hello") "Naver blog" true));
      discriminate.
  - apply (proj2 (convert_post_keeps_or_cuts_caption (replicate 101 97%N)
                    "Thread" false) 100).
    + right. left. by split.
    + vm_compute. lia.
Defined.
